(** * Gateway registration agent of @smashclub/common

    A shallow embedding of [GatewayRegistryService] (the variant with the
    periodic health check) together with the part of the JavaScript run time
    it talks to: the table of live [setInterval] timers and the network
    calls that have been issued and not yet settled.

    Every [async] method of the service is cut at its [await]: the part that
    runs when the method is called ([*_begin]) and the part that runs when
    the awaited [fetch] settles ([*_resume]).  The event loop picks, in any
    order, a live timer to fire or an outstanding call to settle. *)

From Stdlib Require Import List String ZArith Bool Arith Lia.
From Stdlib Require Import Ascii DecimalString.
Import ListNotations.

Local Open Scope string_scope.
Local Open Scope list_scope.
Local Open Scope nat_scope.
Local Set Warnings "-register-all".

(** ** Parsed JSON values, as [response.json()] yields them *)

Module Json.

(** Numbers are kept as integers: the service only ever observes whether a
    number is zero.  An object keeps its members in source order; a later
    member with the same key overrides an earlier one, as in [JSON.parse]. *)
Inductive value : Type :=
| Null
| Bool (b : bool)
| Num (z : Z)
| Str (s : string)
| Arr (items : list value)
| Obj (members : list (string * value)).

Fixpoint assoc_last {A : Type} (k : string) (m : list (string * A)) : option A :=
  match m with
  | [] => None
  | (k', v) :: m' =>
      match assoc_last k m' with
      | Some v' => Some v'
      | None => if String.eqb k k' then Some v else None
      end
  end.

(** [j?.k] for the two keys the service reads ([instances], [instanceId]):
    only an object can carry them; on [null], a primitive or an array the
    optional chain gives [undefined]. *)
Definition prop (k : string) (j : value) : option value :=
  match j with
  | Obj m => assoc_last k m
  | _ => None
  end.

(** JavaScript truthiness, as used by [||]. *)
Definition truthy (j : value) : bool :=
  match j with
  | Null => false
  | Bool b => b
  | Num z => negb (z =? 0)%Z
  | Str s => negb (String.eqb s "")
  | Arr _ => true
  | Obj _ => true
  end.

End Json.

(** ** Configuration *)

Record GatewayRegistryConfig : Type := mkConfig {
  gatewayUrl : string;
  serviceName : string;
  baseUrl : string;
  instanceId : string;
  heartbeatInterval : Z;
  retryInterval : Z;
  healthCheckInterval : Z;
  enabled : bool
}.

(** ** Run-time data *)

(** What [setInterval] returns.  A handle is always truthy. *)
Definition Handle : Type := nat.

(** The three callbacks the service hands to [setInterval]. *)
Inductive TimerKind : Type :=
| HeartbeatCb     (* async () => { await this.sendHeartbeat(); } *)
| RetryCb         (* async () => { if (!this.registered) await this.attemptRegistration(); } *)
| HealthCheckCb.  (* async () => { await this.verifyRegistration(); } *)

(** The four requests the service sends. *)
Inductive Request : Type :=
| POST_register
| POST_heartbeat
| GET_registry
| DELETE_instance.

(** What a [fetch] settles to: a rejection (connection refused, abort, ...)
    or a response with a status and a body; the body is [None] when it is
    not JSON, so that [response.json()] rejects. *)
Inductive Response : Type :=
| Threw
| Http (status : Z) (body : option Json.value).

(** [response.ok] *)
Definition ok (status : Z) : bool := ((200 <=? status) && (status <=? 299))%Z.

(** Who called [attemptRegistration]; only [onModuleInit] does something
    after the call returns. *)
Inductive Caller : Type :=
| ByInit
| ByRetryTick
| ByHeartbeat
| ByForce.

(** A suspended method, waiting for its [fetch]. *)
Inductive Pending : Type :=
| PRegister (c : Caller)
| PHeartbeat
| PVerify
| PDeregister.

Record World : Type := mkWorld {
  (* fields of the service *)
  registered : bool;
  isRetrying : bool;
  consecutiveFailures : nat;
  heartbeatTimer : option Handle;
  retryTimer : option Handle;
  healthCheckTimer : option Handle;
  (* the run time *)
  intervals : list (Handle * TimerKind);
  nextHandle : Handle;
  pending : list Pending;
  fetched : list Request
}.

Definition maxConsecutiveFailures : nat := 3.

Definition initial : World :=
  mkWorld false false 0 None None None [] 0 [] [].

(** *** Field updates *)

Definition set_registered (b : bool) (w : World) : World :=
  mkWorld b (isRetrying w) (consecutiveFailures w) (heartbeatTimer w)
    (retryTimer w) (healthCheckTimer w) (intervals w) (nextHandle w)
    (pending w) (fetched w).

Definition set_isRetrying (b : bool) (w : World) : World :=
  mkWorld (registered w) b (consecutiveFailures w) (heartbeatTimer w)
    (retryTimer w) (healthCheckTimer w) (intervals w) (nextHandle w)
    (pending w) (fetched w).

Definition set_consecutiveFailures (n : nat) (w : World) : World :=
  mkWorld (registered w) (isRetrying w) n (heartbeatTimer w)
    (retryTimer w) (healthCheckTimer w) (intervals w) (nextHandle w)
    (pending w) (fetched w).

Definition set_heartbeatTimer (t : option Handle) (w : World) : World :=
  mkWorld (registered w) (isRetrying w) (consecutiveFailures w) t
    (retryTimer w) (healthCheckTimer w) (intervals w) (nextHandle w)
    (pending w) (fetched w).

Definition set_retryTimer (t : option Handle) (w : World) : World :=
  mkWorld (registered w) (isRetrying w) (consecutiveFailures w)
    (heartbeatTimer w) t (healthCheckTimer w) (intervals w) (nextHandle w)
    (pending w) (fetched w).

Definition set_healthCheckTimer (t : option Handle) (w : World) : World :=
  mkWorld (registered w) (isRetrying w) (consecutiveFailures w)
    (heartbeatTimer w) (retryTimer w) t (intervals w) (nextHandle w)
    (pending w) (fetched w).

(** *** The run time's primitives *)

(** [setInterval(cb, ms)]: a fresh handle, live from now on. *)
Definition setInterval (k : TimerKind) (w : World) : Handle * World :=
  let h := nextHandle w in
  (h, mkWorld (registered w) (isRetrying w) (consecutiveFailures w)
        (heartbeatTimer w) (retryTimer w) (healthCheckTimer w)
        (intervals w ++ [(h, k)]) (S h) (pending w) (fetched w)).

(** [clearInterval(h)] *)
Definition clearInterval (h : Handle) (w : World) : World :=
  mkWorld (registered w) (isRetrying w) (consecutiveFailures w)
    (heartbeatTimer w) (retryTimer w) (healthCheckTimer w)
    (filter (fun p => negb (fst p =? h)%nat) (intervals w)) (nextHandle w)
    (pending w) (fetched w).

(** [await fetch(...)]: the request goes out and the method is suspended. *)
Definition fetch (r : Request) (p : Pending) (w : World) : World :=
  mkWorld (registered w) (isRetrying w) (consecutiveFailures w)
    (heartbeatTimer w) (retryTimer w) (healthCheckTimer w)
    (intervals w) (nextHandle w) (pending w ++ [p]) (fetched w ++ [r]).

Definition drop_pending (i : nat) (w : World) : World :=
  mkWorld (registered w) (isRetrying w) (consecutiveFailures w)
    (heartbeatTimer w) (retryTimer w) (healthCheckTimer w)
    (intervals w) (nextHandle w)
    (firstn i (pending w) ++ skipn (S i) (pending w)) (fetched w).

(** ** The service *)

Definition startHeartbeat (w : World) : World :=
  let (h, w) := setInterval HeartbeatCb w in
  set_heartbeatTimer (Some h) w.

Definition startHealthCheck (w : World) : World :=
  let (h, w) := setInterval HealthCheckCb w in
  set_healthCheckTimer (Some h) w.

Definition stopTimers (w : World) : World :=
  let w := match retryTimer w with
           | Some h => set_retryTimer None (clearInterval h w)
           | None => w
           end in
  let w := match heartbeatTimer w with
           | Some h => set_heartbeatTimer None (clearInterval h w)
           | None => w
           end in
  match healthCheckTimer w with
  | Some h => set_healthCheckTimer None (clearInterval h w)
  | None => w
  end.

(** What the caller does once [attemptRegistration] has returned. *)
Definition after_attemptRegistration (c : Caller) (w : World) : World :=
  match c with
  | ByInit => startHealthCheck w
  | _ => w
  end.

(** [attemptRegistration], up to the [await] inside [register()]. *)
Definition attemptRegistration_begin (c : Caller) (w : World) : World :=
  if registered w then after_attemptRegistration c w
  else fetch POST_register (PRegister c) w.

(** [register()] returns normally iff the response is [ok]; a rejected
    [fetch] and a non-2xx status both end in the [catch]. *)
Definition register_returns (r : Response) : bool :=
  match r with
  | Threw => false
  | Http st _ => ok st
  end.

(** [attemptRegistration], from the [await] on. *)
Definition attemptRegistration_resume (c : Caller) (r : Response) (w : World) : World :=
  let w :=
    if register_returns r then
      let w := set_registered true w in
      let w := set_isRetrying false w in
      let w := match retryTimer w with
               | Some h => set_retryTimer None (clearInterval h w)
               | None => w
               end in
      startHeartbeat w
    else
      let w := set_registered false w in
      if negb (isRetrying w) then
        let w := set_isRetrying true w in
        let (h, w) := setInterval RetryCb w in
        set_retryTimer (Some h) w
      else w in
  after_attemptRegistration c w.

Definition forceReRegister (w : World) : World :=
  let w := set_registered false w in
  let w := set_consecutiveFailures 0 w in
  let w := set_isRetrying false w in
  let w := match heartbeatTimer w with
           | Some h => set_heartbeatTimer None (clearInterval h w)
           | None => w
           end in
  attemptRegistration_begin ByForce w.

Definition handleHeartbeatFailure (w : World) : World :=
  let w := set_consecutiveFailures (S (consecutiveFailures w)) w in
  if (maxConsecutiveFailures <=? consecutiveFailures w)%nat then forceReRegister w
  else w.

Definition sendHeartbeat_begin (w : World) : World :=
  if negb (registered w) then attemptRegistration_begin ByHeartbeat w
  else fetch POST_heartbeat PHeartbeat w.

Definition sendHeartbeat_resume (r : Response) (w : World) : World :=
  match r with
  | Http st _ =>
      if ok st then set_consecutiveFailures 0 w
      else if (st =? 404)%Z then forceReRegister w
      else handleHeartbeatFailure w
  | Threw => handleHeartbeatFailure w
  end.

(** [Array.isArray(data) ? data : (data?.instances || [])] *)
Definition rawInstances (data : Json.value) : Json.value :=
  match data with
  | Json.Arr _ => data
  | _ =>
      match Json.prop "instances" data with
      | Some v => if Json.truthy v then v else Json.Arr []
      | None => Json.Arr []
      end
  end.

(** [inst?.instanceId === this.config.instanceId] *)
Definition is_this_instance (id : string) (inst : Json.value) : bool :=
  match Json.prop "instanceId" inst with
  | Some (Json.Str s) => String.eqb s id
  | _ => false
  end.

(** [rawInstances.some(...)]; [None] is the [TypeError] raised when
    [rawInstances] is not an array and so has no callable [some]. *)
Definition some_instance (id : string) (raw : Json.value) : option bool :=
  match raw with
  | Json.Arr l => Some (existsb (is_this_instance id) l)
  | _ => None
  end.

Definition verifyRegistration_begin (w : World) : World :=
  if negb (registered w) then w
  else fetch GET_registry PVerify w.

Definition verifyRegistration_resume
    (cfg : GatewayRegistryConfig) (r : Response) (w : World) : World :=
  match r with
  | Threw => w
  | Http st body =>
      if negb (ok st) then w
      else
        match body with
        | None => w
        | Some data =>
            match some_instance (instanceId cfg) (rawInstances data) with
            | None => w
            | Some found => if negb found then forceReRegister w else w
            end
        end
  end.

Definition onModuleInit (cfg : GatewayRegistryConfig) (w : World) : World :=
  if negb (enabled cfg) then w
  else attemptRegistration_begin ByInit w.

(** [onModuleDestroy], up to the [await] inside [deregister()]. *)
Definition onModuleDestroy_begin (w : World) : World :=
  let w := stopTimers w in
  if registered w then fetch DELETE_instance PDeregister w
  else w.

(** [deregister()] from its [await] on: any response at all lets it reach
    [this.registered = false]; a rejection goes to the caller's [catch],
    which only logs. *)
Definition onModuleDestroy_resume (r : Response) (w : World) : World :=
  match r with
  | Http _ _ => set_registered false w
  | Threw => w
  end.

Definition retryTick (w : World) : World :=
  if negb (registered w) then attemptRegistration_begin ByRetryTick w
  else w.

(** ** The event loop *)

Inductive Event : Type :=
| EvInit                              (* the framework calls onModuleInit *)
| EvDestroy                           (* the framework calls onModuleDestroy *)
| EvTick (h : Handle)                 (* the live timer [h] fires *)
| EvSettle (i : nat) (r : Response).  (* the [i]-th outstanding call settles *)

Fixpoint kind_of (h : Handle) (l : list (Handle * TimerKind)) : option TimerKind :=
  match l with
  | [] => None
  | (h', k) :: l' => if (h' =? h)%nat then Some k else kind_of h l'
  end.

Definition fire (k : TimerKind) (w : World) : World :=
  match k with
  | HeartbeatCb => sendHeartbeat_begin w
  | RetryCb => retryTick w
  | HealthCheckCb => verifyRegistration_begin w
  end.

Definition resume (cfg : GatewayRegistryConfig) (p : Pending) (r : Response)
    (w : World) : World :=
  match p with
  | PRegister c => attemptRegistration_resume c r w
  | PHeartbeat => sendHeartbeat_resume r w
  | PVerify => verifyRegistration_resume cfg r w
  | PDeregister => onModuleDestroy_resume r w
  end.

(** One turn of the loop; [None] when the event cannot happen (the timer is
    not live, there is no such outstanding call). *)
Definition step (cfg : GatewayRegistryConfig) (e : Event) (w : World) : option World :=
  match e with
  | EvInit => Some (onModuleInit cfg w)
  | EvDestroy => Some (onModuleDestroy_begin w)
  | EvTick h =>
      match kind_of h (intervals w) with
      | Some k => Some (fire k w)
      | None => None
      end
  | EvSettle i r =>
      match nth_error (pending w) i with
      | Some p => Some (resume cfg p r (drop_pending i w))
      | None => None
      end
  end.

Fixpoint run (cfg : GatewayRegistryConfig) (es : list Event) (w : World) : option World :=
  match es with
  | [] => Some w
  | e :: es' =>
      match step cfg e w with
      | Some w' => run cfg es' w'
      | None => None
      end
  end.

(** *** Observations *)

Definition same_kind (k k' : TimerKind) : bool :=
  match k, k' with
  | HeartbeatCb, HeartbeatCb => true
  | RetryCb, RetryCb => true
  | HealthCheckCb, HealthCheckCb => true
  | _, _ => false
  end.

Definition handles_of (k : TimerKind) (l : list (Handle * TimerKind)) : list Handle :=
  map fst (filter (fun p => same_kind k (snd p)) l).

(** The live timers that run the callback [k]. *)
Definition live (k : TimerKind) (w : World) : list Handle :=
  handles_of k (intervals w).

Definition in_flight (q : Pending -> bool) (w : World) : nat :=
  List.length (filter q (pending w)).

Definition is_register (p : Pending) : bool :=
  match p with
  | PRegister _ => true
  | _ => false
  end.

(** Run [op]; if it suspended on a [fetch], let that call settle to [r]
    before anything else happens. *)
Definition and_settle (cfg : GatewayRegistryConfig) (op : World -> World)
    (r : Response) (w : World) : World :=
  let w1 := op w in
  match nth_error (pending w1) (List.length (pending w)) with
  | Some p => resume cfg p r (drop_pending (List.length (pending w)) w1)
  | None => w1
  end.

(** A heartbeat response that is neither a success nor a 404. *)
Definition generic_failure (r : Response) : bool :=
  match r with
  | Threw => true
  | Http st _ => negb (ok st) && negb (st =? 404)%Z
  end.

(** Every live timer is the one remembered in the field of its kind. *)
Definition tracked (w : World) : Prop :=
  forall h k, In (h, k) (intervals w) ->
    match k with
    | HeartbeatCb => heartbeatTimer w = Some h
    | RetryCb => retryTimer w = Some h
    | HealthCheckCb => healthCheckTimer w = Some h
    end.

Definition example_config : GatewayRegistryConfig :=
  mkConfig "http://localhost:8080" "booking" "http://localhost:3000"
    "booking-1a2b3c4d" 5000 15000 30000 true.

(** *** Notions used in the statements *)

(** The request [q] has gone out and its answer has come back. *)
Definition sent (q : Request) (w : World) : World :=
  mkWorld (registered w) (isRetrying w) (consecutiveFailures w)
    (heartbeatTimer w) (retryTimer w) (healthCheckTimer w)
    (intervals w) (nextHandle w) (pending w) (fetched w ++ [q]).

(** [registered] and [isRetrying] are not both set. *)
Definition exclusive (w : World) : Prop :=
  registered w && isRetrying w = false.

(** The instance list of a body of one of the two documented shapes: an
    array, or an object whose [instances] member is an array. *)
Definition listed (data : Json.value) : option (list Json.value) :=
  match data with
  | Json.Arr l => Some l
  | Json.Obj m =>
      match Json.assoc_last "instances" m with
      | Some (Json.Arr l) => Some l
      | _ => None
      end
  | _ => None
  end.

Definition is_array (j : Json.value) : bool :=
  match j with
  | Json.Arr _ => true
  | _ => false
  end.

(** The [instances] member is missing or falsy, so that [|| []] applies. *)
Definition no_instances (data : Json.value) : bool :=
  match Json.prop "instances" data with
  | Some v => negb (Json.truthy v)
  | None => true
  end.

(** The [instances] member is truthy and not an array: it is used as it
    is, and has no [some] to call. *)
Definition odd_instances (data : Json.value) : bool :=
  match Json.prop "instances" data with
  | Some v => Json.truthy v && negb (is_array v)
  | None => false
  end.

(** *** Notions used in the further properties *)

(** The failure counter has not reached the threshold. *)
Definition below_threshold (w : World) : Prop :=
  consecutiveFailures w < maxConsecutiveFailures.

Definition disabled_config : GatewayRegistryConfig :=
  mkConfig "http://localhost:8080" "booking" "http://localhost:3000"
    "booking-1a2b3c4d" 5000 15000 30000 false.

(** Handles are handed out once: the live timers have distinct handles, all
    older than the next one. *)
Definition handles_fresh (w : World) : Prop :=
  NoDup (map fst (intervals w)) /\
  forall h, In h (map fst (intervals w)) -> h < nextHandle w.

(** A timer field that is set names a live timer that runs the callback of
    its kind. *)
Definition fields_live (w : World) : Prop :=
  (forall h, heartbeatTimer w = Some h -> In (h, HeartbeatCb) (intervals w)) /\
  (forall h, retryTimer w = Some h -> In (h, RetryCb) (intervals w)) /\
  (forall h, healthCheckTimer w = Some h -> In (h, HealthCheckCb) (intervals w)).

Definition sound (w : World) : Prop := handles_fresh w /\ fields_live w.

(** The two worlds agree on the timers and on the three timer fields. *)
Definition same_timers (w w' : World) : Prop :=
  intervals w' = intervals w /\ nextHandle w' = nextHandle w /\
  heartbeatTimer w' = heartbeatTimer w /\ retryTimer w' = retryTimer w /\
  healthCheckTimer w' = healthCheckTimer w.

(** A register call has been sent and not yet answered. *)
Definition register_outstanding (w : World) : Prop :=
  exists c, In (PRegister c) (pending w).

(** While [isRetrying] is set the retry timer field is set. *)
Definition retry_armed (w : World) : Prop :=
  isRetrying w = true -> exists h, retryTimer w = Some h.

(** An unregistered service is either waiting for a register call or
    retrying. *)
Definition recoverable (w : World) : Prop :=
  registered w = false -> register_outstanding w \/ isRetrying w = true.

Definition keeps_trying (w : World) : Prop :=
  retry_armed w /\ recoverable w /\ ~ In PDeregister (pending w).

(** The two worlds agree on what [keeps_trying] looks at. *)
Definition same_progress (w w' : World) : Prop :=
  registered w' = registered w /\ isRetrying w' = isRetrying w /\
  retryTimer w' = retryTimer w /\ pending w' = pending w.

Definition is_destroy (e : Event) : bool :=
  match e with
  | EvDestroy => true
  | _ => false
  end.

(** The part of [forceReRegister] that comes before its call to
    [attemptRegistration]. *)
Definition unregister (w : World) : World :=
  let w := set_registered false w in
  let w := set_consecutiveFailures 0 w in
  let w := set_isRetrying false w in
  match heartbeatTimer w with
  | Some h => set_heartbeatTimer None (clearInterval h w)
  | None => w
  end.

(** Timers and flags agree: every live timer is remembered, an unregistered
    service holds no heartbeat timer, a service that is not retrying holds
    no retry timer. *)
Definition orderly (w : World) : Prop :=
  tracked w /\
  (registered w = false -> heartbeatTimer w = None) /\
  (isRetrying w = false -> retryTimer w = None) /\
  exclusive w.

(** A turn in which nothing overlaps: a timer fires and the call it sends
    is answered with [r1] at once; if that answer forces a re-registration,
    the register call is answered with [r2] at once.  Or the framework shuts
    the service down and the DELETE is answered with [r]. *)
Inductive Turn : Type :=
| TurnTick (h : Handle) (r1 r2 : Response)
| TurnDestroy (r : Response).

Definition turn (cfg : GatewayRegistryConfig) (t : Turn) (w : World) : option World :=
  match t with
  | TurnTick h r1 r2 =>
      match kind_of h (intervals w) with
      | Some k => Some (and_settle cfg (and_settle cfg (fire k) r1) r2 w)
      | None => None
      end
  | TurnDestroy r => Some (and_settle cfg onModuleDestroy_begin r w)
  end.

Fixpoint turns (cfg : GatewayRegistryConfig) (ts : list Turn) (w : World) : option World :=
  match ts with
  | [] => Some w
  | t :: ts' =>
      match turn cfg t w with
      | Some w' => turns cfg ts' w'
      | None => None
      end
  end.

(** ** The variant without health check

    [gateway-registry.service.ts] holds an earlier [GatewayRegistryService]:
    no health-check timer, no failure counter.  It runs in the same world;
    [healthCheckTimer] and [consecutiveFailures] are never written. *)

Module Basic.

Definition stopTimers (w : World) : World :=
  let w := match retryTimer w with
           | Some h => set_retryTimer None (clearInterval h w)
           | None => w
           end in
  match heartbeatTimer w with
  | Some h => set_heartbeatTimer None (clearInterval h w)
  | None => w
  end.

(** [attemptRegistration], up to the [await] inside [register()]; no caller
    does anything after it returns. *)
Definition attemptRegistration_begin (c : Caller) (w : World) : World :=
  if registered w then w
  else fetch POST_register (PRegister c) w.

Definition attemptRegistration_resume (r : Response) (w : World) : World :=
  if register_returns r then
    let w := set_registered true w in
    let w := set_isRetrying false w in
    let w := match retryTimer w with
             | Some h => set_retryTimer None (clearInterval h w)
             | None => w
             end in
    startHeartbeat w
  else
    let w := set_registered false w in
    if negb (isRetrying w) then
      let w := set_isRetrying true w in
      let (h, w) := setInterval RetryCb w in
      set_retryTimer (Some h) w
    else w.

Definition sendHeartbeat_begin (w : World) : World :=
  if negb (registered w) then attemptRegistration_begin ByHeartbeat w
  else fetch POST_heartbeat PHeartbeat w.

(** Both the [!response.ok] branch and the [catch] do the same two things. *)
Definition sendHeartbeat_resume (r : Response) (w : World) : World :=
  match r with
  | Http st _ =>
      if negb (ok st) then
        attemptRegistration_begin ByHeartbeat (set_registered false w)
      else w
  | Threw => attemptRegistration_begin ByHeartbeat (set_registered false w)
  end.

Definition onModuleInit (cfg : GatewayRegistryConfig) (w : World) : World :=
  if negb (enabled cfg) then w
  else attemptRegistration_begin ByInit w.

Definition onModuleDestroy_begin (w : World) : World :=
  let w := stopTimers w in
  if registered w then fetch DELETE_instance PDeregister w
  else w.

Definition retryTick (w : World) : World :=
  if negb (registered w) then attemptRegistration_begin ByRetryTick w
  else w.

(** This variant arms no health-check timer and sends no registry query. *)
Definition fire (k : TimerKind) (w : World) : World :=
  match k with
  | HeartbeatCb => sendHeartbeat_begin w
  | RetryCb => retryTick w
  | HealthCheckCb => w
  end.

Definition resume (p : Pending) (r : Response) (w : World) : World :=
  match p with
  | PRegister _ => attemptRegistration_resume r w
  | PHeartbeat => sendHeartbeat_resume r w
  | PVerify => w
  | PDeregister => onModuleDestroy_resume r w
  end.

Definition step (cfg : GatewayRegistryConfig) (e : Event) (w : World) : option World :=
  match e with
  | EvInit => Some (onModuleInit cfg w)
  | EvDestroy => Some (onModuleDestroy_begin w)
  | EvTick h =>
      match kind_of h (intervals w) with
      | Some k => Some (fire k w)
      | None => None
      end
  | EvSettle i r =>
      match nth_error (pending w) i with
      | Some p => Some (resume p r (drop_pending i w))
      | None => None
      end
  end.

Fixpoint run (cfg : GatewayRegistryConfig) (es : list Event) (w : World) : option World :=
  match es with
  | [] => Some w
  | e :: es' =>
      match step cfg e w with
      | Some w' => run cfg es' w'
      | None => None
      end
  end.

(** Run [op]; if it suspended on a [fetch], let that call settle to [r]
    before anything else happens. *)
Definition and_settle (op : World -> World) (r : Response) (w : World) : World :=
  let w1 := op w in
  match nth_error (pending w1) (List.length (pending w)) with
  | Some p => resume p r (drop_pending (List.length (pending w)) w1)
  | None => w1
  end.

(** A heartbeat fires on a registered service and is answered [r1]; the
    register call this leads to, if any, is answered [r2]. *)
Definition beat (r1 r2 : Response) (w : World) : World :=
  and_settle (and_settle sendHeartbeat_begin r1) r2 w.

End Basic.

(** ** Guards and helpers around the agent *)

(** *** [RolesGuard] *)

Module Roles.

(** [canActivate] returns [true] or throws a [ForbiddenException]. *)
Inductive Verdict : Type :=
| Allow
| Forbidden (message : string).

(** [request.user], as far as the guard reads it: [roles] may be missing. *)
Record RequestUser : Type := mkUser {
  roles : option (list string)
}.

(** [toUpperCase] is the built-in of the run time; [requiredRoles] is what
    the reflector finds under [ROLES_KEY], [None] when nothing is set. *)
Definition canActivate (toUpperCase : string -> string)
    (requiredRoles : option (list string)) (user : option RequestUser) : Verdict :=
  match requiredRoles with
  | None => Allow
  | Some [] => Allow
  | Some required =>
      match user with
      | None => Forbidden "Insufficient permissions"
      | Some u =>
          match roles u with
          | None => Forbidden "Insufficient permissions"
          | Some [] => Forbidden "Insufficient permissions"
          | Some userRoles =>
              let userRolesUpper := map toUpperCase userRoles in
              let requiredRolesUpper := map toUpperCase required in
              let hasRole :=
                existsb (fun r => existsb (String.eqb r) userRolesUpper)
                  requiredRolesUpper in
              if negb hasRole then
                Forbidden ("Access denied. Required roles: "
                           ++ String.concat ", " required)
              else Allow
          end
      end
  end.

End Roles.

(** *** [UserThrottleGuard] *)

Module Throttle.

(** What [getTracker] reads of the request: [req.user?.id], [req.ip] and
    [req.headers?.['x-forwarded-for']], each [None] when undefined. *)
Record Req : Type := mkReq {
  user_id : option string;
  ip : option string;
  x_forwarded_for : option string
}.

(** A string is truthy when it is there and not empty. *)
Definition truthy (o : option string) : option string :=
  match o with
  | Some s => if String.eqb s "" then None else Some s
  | None => None
  end.

Definition getTracker (req : Req) : string :=
  match truthy (user_id req) with
  | Some id => "user:" ++ id
  | None =>
      let ip :=
        match truthy (ip req) with
        | Some a => a
        | None =>
            match truthy (x_forwarded_for req) with
            | Some f => f
            | None => "unknown"
            end
        end in
      "ip:" ++ ip
  end.

End Throttle.

(** *** Pagination

    [page], [limit] and [total] are whole numbers, as a query string parsed
    to a number gives them; [None] is [undefined].  They are doubles: a
    double holds every whole number up to [2 ^ 53] in absolute value and,
    above that, 53 significant bits, so the difference and the product of
    [getSkip] are rounded. *)

Module Pagination.

Definition LIMIT : Z := 10.
Definition MAX_LIMIT : Z := 100.

(** [x || d] on numbers: [undefined] and [0] give way to [d]. *)
Definition or_default (x : option Z) (d : Z) : Z :=
  match x with
  | Some v => if (v =? 0)%Z then d else v
  | None => d
  end.






Record PaginationQueryDto : Type := mkQuery {
  page : option Z;
  limit : option Z
}.


Definition getTake (q : PaginationQueryDto) : Z :=
  Z.min (or_default (limit q) LIMIT) MAX_LIMIT.



End Pagination.

(** *** Time zone helpers

    A [Date] holds a time value in milliseconds, or is invalid. *)

Module Timezone.

Definition TIMEZONE_OFFSET_HOURS : Z := 7.

Definition Date : Type := option Z.

(** The largest time value a [Date] can hold. *)
Definition MAX_TIME : Z := 8640000000000000.

(** [new Date(v)] for a number [v]. *)
Definition of_time (v : Z) : Date :=
  if (Z.abs v <=? MAX_TIME)%Z then Some v else None.

Definition valid (d : Date) : Prop :=
  match d with
  | Some t => (Z.abs t <= MAX_TIME)%Z
  | None => True
  end.

Inductive DateInput : Type :=
| OfDate (d : Date)
| OfString (s : string).

(** [new Date(x)] for [x : Date | string]; [parse] is [Date.parse]. *)
Definition new_Date (parse : string -> Date) (x : DateInput) : Date :=
  match x with
  | OfDate d => d
  | OfString s => parse s
  end.

Definition toLocalTime (parse : string -> Date) (utcDate : DateInput) : Date :=
  match new_Date parse utcDate with
  | Some t => of_time (t + TIMEZONE_OFFSET_HOURS * 60 * 60 * 1000)%Z
  | None => None
  end.

Definition toUtcTime (parse : string -> Date) (localDate : DateInput) : Date :=
  match new_Date parse localDate with
  | Some t => of_time (t - TIMEZONE_OFFSET_HOURS * 60 * 60 * 1000)%Z
  | None => None
  end.

End Timezone.

(** *** HMAC signatures

    Strings are byte strings, so that [Buffer.from(s, 'utf8')] is [s]
    itself; [hmac secret data] is
    [createHmac('sha256', secret).update(data).digest('hex')]. *)

Module Hmac.

Definition buildHmacSignature (hmac : string -> string -> string)
    (data secret : string) : string :=
  hmac secret data.

Definition verifyHmacSignature (hmac : string -> string -> string)
    (data provided secret : string) : bool :=
  let expected := buildHmacSignature hmac data secret in
  if negb (String.length provided =? String.length expected) then false
  else String.eqb provided expected.

End Hmac.

(** *** The response wrapper

    What a handler returns is taken to be plain data (a defined JSON-like
    value). *)

Module Wrap.

Definition has (k : string) (m : list (string * Json.value)) : bool :=
  match Json.assoc_last k m with
  | Some _ => true
  | None => false
  end.

Definition isAlreadyWrapped (data : Json.value) : bool :=
  match data with
  | Json.Obj m =>
      (has "statusCode" m || has "status" m) && (has "data" m || has "message" m)
  | Json.Arr _ => false
  | _ => false
  end.

(** The function mapped over the handler's results; [statusCode] is
    [response.statusCode], [now] is [new Date().toISOString()]. *)
Definition wrap (statusCode : Z) (now : string) (data : Json.value) : Json.value :=
  if isAlreadyWrapped data then data
  else
    Json.Obj [("statusCode",
               Json.Num (if (statusCode =? 0)%Z then 200 else statusCode));
              ("message", Json.Str "Success");
              ("data", data);
              ("timestamp", Json.Str now)].

End Wrap.

(** *** [RepositoryLogger]

    [fn] has already run: what matters of it is how it ended and what the
    clock showed before and after.  [safeStringify] is left as it comes
    ([JSON.stringify] with the truncating replacer, or the fallback text);
    nothing below depends on the text it produces. *)

Module RepoLogger.

Record RepositoryLoggerOptions : Type := mkOptions {
  o_enabled : option bool;
  o_slowQueryThreshold : option Z;
  o_logParams : option bool
}.

(** [Required<RepositoryLoggerOptions>] *)
Record Settings : Type := mkSettings {
  enabled : bool;
  slowQueryThreshold : Z;
  logParams : bool
}.

(** [process.env.NODE_ENV === 'production'] *)
Definition is_production (NODE_ENV : option string) : bool :=
  match NODE_ENV with
  | Some s => String.eqb s "production"
  | None => false
  end.

(** [a ?? d] *)
Definition nullish {A : Type} (a : option A) (d : A) : A :=
  match a with
  | Some v => v
  | None => d
  end.

(** The constructor. *)
Definition create (NODE_ENV : option string)
    (options : RepositoryLoggerOptions) : Settings :=
  let isProduction := is_production NODE_ENV in
  mkSettings (nullish (o_enabled options) (negb isProduction))
    (nullish (o_slowQueryThreshold options) 1000%Z)
    (nullish (o_logParams options) (negb isProduction)).

Inductive Level : Type :=
| LevelWarn
| LevelDebug
| LevelError.

Record Entry : Type := mkEntry {
  level : Level;
  message : string;
  trace : option string
}.

(** How [await fn()] ended. *)
Inductive Outcome (T E : Type) : Type :=
| Resolved (v : T)
| Rejected (e : E).

Arguments Resolved {T E} v.
Arguments Rejected {T E} e.

(** [`${n}`] for a whole number. *)
Definition show (n : Z) : string := NilZero.string_of_int (Z.to_int n).

(** What reading [(error as Error).stack] does.  On most values it gives
    the member, [undefined] where there is none; on [null] and [undefined]
    the read itself throws a [TypeError], and a getter may throw what it
    likes. *)
Inductive StackRead (E : Type) : Type :=
| ReadsAs (s : option string)
| ReadThrows (thrown : E).

Arguments ReadsAs {E} s.
Arguments ReadThrows {E} thrown.

Section Logger.

Variables T E P : Type.
Variable stack : E -> StackRead E.
Variable safeStringify : P -> string.

(** [(this.options.logParams && params ? ` | params: ...` : '')];
    [params] is [None] for [null]. *)
Definition params_suffix (s : Settings) (params : option P) : string :=
  match params with
  | Some p => if logParams s then (" | params: " ++ safeStringify p)%string else ""
  | None => ""
  end.

(** In the [catch] the arguments of [this.logger.error] are evaluated
    before the call: when reading the stack throws, nothing is logged and
    the method rejects with what the read threw, not with [error]. *)
Definition executeWithTiming (s : Settings) (NODE_ENV : option string)
    (operation : string) (params : option P) (startTime endTime : Z)
    (result : Outcome T E) : Outcome T E * list Entry :=
  let duration := (endTime - startTime)%Z in
  match result with
  | Resolved v =>
      (Resolved v,
       if (slowQueryThreshold s <? duration)%Z then
         [mkEntry LevelWarn
            ("SLOW QUERY: " ++ operation ++ " took " ++ show duration ++ "ms"
             ++ params_suffix s params)%string None]
       else if enabled s && negb (is_production NODE_ENV) then
         [mkEntry LevelDebug
            (operation ++ " (" ++ show duration ++ "ms)"
             ++ params_suffix s params)%string None]
       else [])
  | Rejected e =>
      match stack e with
      | ReadsAs trace =>
          (Rejected e,
           [mkEntry LevelError
              ("FAILED: " ++ operation ++ " (" ++ show duration ++ "ms)"
               ++ params_suffix s params)%string trace])
      | ReadThrows thrown => (Rejected thrown, [])
      end
  end.

Definition query (s : Settings) (NODE_ENV : option string)
    (operation : string) (params : option P) (startTime endTime : Z)
    (result : Outcome T E) : Outcome T E * list Entry :=
  if negb (enabled s) then (result, [])
  else executeWithTiming s NODE_ENV operation params startTime endTime result.

End Logger.

End RepoLogger.

(** *** [GatewayAuthGuard] and [GatewayAuthMiddleware]

    [request.user] is a plain object an earlier layer attached, given by
    its members, or nothing; so is the payload of a verified token.  A
    member that would hold [undefined] is left out of the object.  [trim]
    is the built-in of the run time. *)

Module Auth.

Definition Members : Type := list (string * Json.value).

Record Request : Type := mkRequest {
  headers : string -> option string;
  user : option Members
}.

Inductive Verdict : Type :=
| Allow
| Unauthorized (message : string).

(** A header value is truthy when it is there and not empty. *)
Definition present (h : option string) : option string :=
  match h with
  | Some s => if String.eqb s "" then None else Some s
  | None => None
  end.

(** [s.split(',')] *)
Fixpoint split_comma (s : string) : list string :=
  match s with
  | EmptyString => [EmptyString]
  | String c rest =>
      if Ascii.eqb c ","%char then EmptyString :: split_comma rest
      else
        match split_comma rest with
        | x :: xs => String c x :: xs
        | [] => [String c EmptyString]
        end
  end.

(** [userRoles ? String(userRoles).split(',').map(r => r.trim()) : []] *)
Definition roles_of (trim : string -> string) (userRoles : option string) : list string :=
  match present userRoles with
  | Some s => map trim (split_comma s)
  | None => []
  end.

(** [{ id, email, roles }] *)
Definition user_object (id : string) (email : option string)
    (roles : list string) : Members :=
  [("id", Json.Str id)]
  ++ match email with
     | Some e => [("email", Json.Str e)]
     | None => []
     end
  ++ [("roles", Json.Arr (map Json.Str roles))].

(** [request.user.k] is truthy. *)
Definition truthy_prop (k : string) (u : option Members) : bool :=
  match u with
  | Some m =>
      match Json.assoc_last k m with
      | Some x => Json.truthy x
      | None => false
      end
  | None => false
  end.

(** [request.user.id = request.user.sub] *)
Definition copy_sub_to_id (u : option Members) : option Members :=
  match u with
  | Some m =>
      match Json.assoc_last "sub" m with
      | Some sub => Some (m ++ [("id", sub)])
      | None => u
      end
  | None => u
  end.

(** [GatewayAuthGuard.canActivate]: the verdict and the request as it is
    left. *)
Definition canActivate (trim : string -> string) (isPublic : bool)
    (request : Request) : Verdict * Request :=
  if isPublic then (Allow, request)
  else
    let userId := headers request "x-user-id" in
    let userRoles := headers request "x-user-roles" in
    let userEmail := headers request "x-user-email" in
    let request :=
      match present userId, user request with
      | Some id, None =>
          mkRequest (headers request)
            (Some (user_object id (present userEmail)
                     (roles_of trim userRoles)))
      | _, _ => request
      end in
    match user request with
    | Some _ =>
        if truthy_prop "id" (user request) || truthy_prop "sub" (user request)
        then
          if negb (truthy_prop "id" (user request))
             && truthy_prop "sub" (user request)
          then (Allow,
                mkRequest (headers request) (copy_sub_to_id (user request)))
          else (Allow, request)
        else (Unauthorized "Authentication required", request)
    | None => (Unauthorized "Authentication required", request)
    end.

(** The settings [GatewayAuthMiddleware] reads once, in its constructor. *)
Record Middleware : Type := mkMiddleware {
  trustGateway : bool;
  jwtSecret : string
}.

Definition create (get : string -> option string) : Middleware :=
  mkMiddleware
    (negb match get "TRUST_GATEWAY_AUTH" with
          | Some s => String.eqb s "false"
          | None => false
          end)
    (match present (get "JWT_SECRET") with
     | Some s => s
     | None => ""
     end).

(** [a || b] on values that may be [undefined]. *)
Definition or_else (a b : option Json.value) : option Json.value :=
  match a with
  | Some v => if Json.truthy v then a else b
  | None => b
  end.

Definition member (k : string) (v : option Json.value) : Members :=
  match v with
  | Some x => [(k, x)]
  | None => []
  end.

(** The user object built from the payload of a verified token. *)
Definition user_of_token (decoded : Members) : Members :=
  member "id" (or_else (or_else (Json.assoc_last "sub" decoded)
                          (Json.assoc_last "id" decoded))
                 (Json.assoc_last "userId" decoded))
  ++ member "email" (Json.assoc_last "email" decoded)
  ++ member "roles" (or_else (Json.assoc_last "roles" decoded)
                       (Some (Json.Arr []))).

(** [GatewayAuthMiddleware.use], up to the call of [next()]; [verify] is
    [jwt.verify], [None] when it throws. *)
Definition use (trim : string -> string)
    (verify : string -> string -> option Members)
    (mw : Middleware) (req : Request) : Request :=
  let userId := headers req "x-user-id" in
  let userEmail := headers req "x-user-email" in
  let userRoles := headers req "x-user-roles" in
  match present userId with
  | Some id =>
      mkRequest (headers req)
        (Some (user_object id userEmail (roles_of trim userRoles)))
  | None =>
      if negb (trustGateway mw) && negb (String.eqb (jwtSecret mw) "") then
        match headers req "authorization" with
        | Some authHeader =>
            if String.prefix "Bearer " authHeader then
              let token :=
                String.substring 7 (String.length authHeader - 7) authHeader in
              match verify token (jwtSecret mw) with
              | Some decoded =>
                  mkRequest (headers req) (Some (user_of_token decoded))
              | None => req
              end
            else req
        | None => req
        end
      else req
  end.

End Auth.

(** *** The [LogQuery] decorator

    The method it wraps has already run, as for [RepositoryLogger]. *)

Module LogQuery.

(** A call of [console.warn], [console.error] or [console.log]; the error
    that [console.error] is given comes second. *)
Inductive Line (E : Type) : Type :=
| ConsoleWarn (text : string)
| ConsoleError (text : string) (error : E)
| ConsoleLog (text : string).

Arguments ConsoleWarn {E} text.
Arguments ConsoleError {E} text error.
Arguments ConsoleLog {E} text.

(** [operation || propertyKey] *)
Definition methodName (operation : option string) (propertyKey : string) : string :=
  match operation with
  | Some s => if String.eqb s "" then propertyKey else s
  | None => propertyKey
  end.

(** The replaced method; [className] is [target.constructor.name]. *)
Definition wrapped {T E : Type} (className : string)
    (operation : option string) (propertyKey : string)
    (NODE_ENV : option string) (startTime endTime : Z)
    (result : RepoLogger.Outcome T E) : RepoLogger.Outcome T E * list (Line E) :=
  let methodName := methodName operation propertyKey in
  let isProduction := RepoLogger.is_production NODE_ENV in
  let duration := (endTime - startTime)%Z in
  let name := (className ++ "." ++ methodName)%string in
  if isProduction then
    match result with
    | RepoLogger.Resolved v =>
        (RepoLogger.Resolved v,
         if (1000 <? duration)%Z then
           [ConsoleWarn ("[SLOW] " ++ name ++ ": " ++ RepoLogger.show duration
                         ++ "ms")%string]
         else [])
    | RepoLogger.Rejected e =>
        (RepoLogger.Rejected e,
         [ConsoleError ("[ERROR] " ++ name ++ ":")%string e])
    end
  else
    match result with
    | RepoLogger.Resolved v =>
        (RepoLogger.Resolved v,
         [ConsoleLog ("[QUERY] " ++ name ++ " started")%string;
          ConsoleLog ("[QUERY] " ++ name ++ " completed ("
                      ++ RepoLogger.show duration ++ "ms)")%string])
    | RepoLogger.Rejected e =>
        (RepoLogger.Rejected e,
         [ConsoleLog ("[QUERY] " ++ name ++ " started")%string;
          ConsoleError ("[ERROR] " ++ name ++ " failed ("
                        ++ RepoLogger.show duration ++ "ms):")%string e])
    end.

End LogQuery.

(** * Proofs *)

Ltac eval_service :=
  cbv beta iota zeta delta
    [and_settle resume fire retryTick
     onModuleInit onModuleDestroy_begin onModuleDestroy_resume
     verifyRegistration_resume verifyRegistration_begin
     sendHeartbeat_resume sendHeartbeat_begin handleHeartbeatFailure
     forceReRegister attemptRegistration_resume attemptRegistration_begin
     after_attemptRegistration stopTimers startHealthCheck startHeartbeat
     drop_pending fetch clearInterval setInterval
     set_registered set_isRetrying set_consecutiveFailures
     set_heartbeatTimer set_retryTimer set_healthCheckTimer
     registered isRetrying consecutiveFailures heartbeatTimer retryTimer
     healthCheckTimer intervals nextHandle pending fetched
     negb andb fst snd] in *.

Ltac split_cases :=
  repeat match goal with
         | |- context [if ?b then _ else _] => destruct b eqn:?; eval_service
         | |- context [match ?o with Some _ => _ | None => _ end] =>
             destruct o eqn:?; eval_service
         end.

(** ** [registered] and [isRetrying] exclude each other *)

Lemma exclusive_attemptRegistration_begin c w :
  exclusive w -> exclusive (attemptRegistration_begin c w).
Proof.
  unfold exclusive; destruct w, c; eval_service; intros H;
    split_cases; try congruence; auto.
Qed.

Lemma exclusive_attemptRegistration_resume c r w :
  exclusive (attemptRegistration_resume c r w).
Proof.
  unfold exclusive; destruct w, c; eval_service;
    split_cases; try congruence; auto.
Qed.

Lemma exclusive_forceReRegister w : exclusive (forceReRegister w).
Proof.
  unfold exclusive; destruct w; eval_service; split_cases; try congruence; auto.
Qed.

Lemma exclusive_handleHeartbeatFailure w :
  exclusive w -> exclusive (handleHeartbeatFailure w).
Proof.
  intros H. unfold handleHeartbeatFailure.
  destruct (maxConsecutiveFailures <=? _)%nat.
  - apply exclusive_forceReRegister.
  - exact H.
Qed.

Lemma exclusive_resume cfg p r w :
  exclusive w -> exclusive (resume cfg p r w).
Proof.
  intros H. destruct p; cbn.
  - apply exclusive_attemptRegistration_resume.
  - unfold sendHeartbeat_resume. destruct r as [|st b].
    + now apply exclusive_handleHeartbeatFailure.
    + destruct (ok st); [exact H|].
      destruct (st =? 404)%Z;
        [apply exclusive_forceReRegister
        |now apply exclusive_handleHeartbeatFailure].
  - unfold verifyRegistration_resume. destruct r as [|st b]; [exact H|].
    destruct (negb (ok st)); [exact H|].
    destruct b as [data|]; [|exact H].
    destruct (some_instance _ _) as [[|]|]; cbn; auto.
    apply exclusive_forceReRegister.
  - unfold onModuleDestroy_resume. destruct r; [exact H|].
    reflexivity.
Qed.

Lemma exclusive_drop_pending i w : exclusive w -> exclusive (drop_pending i w).
Proof. exact (fun H => H). Qed.

Lemma exclusive_stopTimers w : exclusive w -> exclusive (stopTimers w).
Proof.
  destruct w as [r i n [a|] [b|] [c|] l nx p f]; intros H; exact H.
Qed.

Lemma exclusive_fire k w : exclusive w -> exclusive (fire k w).
Proof.
  intros H. destruct k; cbn.
  - unfold sendHeartbeat_begin. destruct (negb (registered w)).
    + now apply exclusive_attemptRegistration_begin.
    + exact H.
  - unfold retryTick. destruct (negb (registered w)).
    + now apply exclusive_attemptRegistration_begin.
    + exact H.
  - unfold verifyRegistration_begin. destruct (negb (registered w)); exact H.
Qed.

Lemma exclusive_step cfg e w w' :
  exclusive w -> step cfg e w = Some w' -> exclusive w'.
Proof.
  intros H. destruct e as [| |h|i r]; cbn.
  - intros [= <-]. unfold onModuleInit. destruct (negb (enabled cfg)).
    + exact H.
    + now apply exclusive_attemptRegistration_begin.
  - intros [= <-]. unfold onModuleDestroy_begin.
    pose proof (exclusive_stopTimers w H) as Hs.
    destruct (registered (stopTimers w)); exact Hs.
  - destruct (kind_of h (intervals w)) as [k|]; [|discriminate].
    intros [= <-]. now apply exclusive_fire.
  - destruct (nth_error (pending w) i) as [p|]; [|discriminate].
    intros [= <-]. now apply exclusive_resume, exclusive_drop_pending.
Qed.

Lemma exclusive_run cfg es : forall w w',
  exclusive w -> run cfg es w = Some w' -> exclusive w'.
Proof.
  induction es as [|e es IH]; cbn; intros w w' H.
  - now intros [= <-].
  - destruct (step cfg e w) as [w1|] eqn:E; [|discriminate].
    apply IH. eapply exclusive_step; eauto.
Qed.

(** C1. Whatever the framework calls, whichever timers fire and however the
    register, heartbeat, verify and deregister calls settle, in whatever
    order, the service never has [registered] and [isRetrying] both true. *)
Theorem registered_and_isRetrying_never_both cfg es w :
  run cfg es initial = Some w ->
  ~ (registered w = true /\ isRetrying w = true).
Proof.
  intros Hrun [Hr Hi].
  assert (E : exclusive w)
    by (apply (exclusive_run cfg es initial w); [reflexivity|exact Hrun]).
  unfold exclusive in E. rewrite Hr, Hi in E. discriminate.
Qed.

Lemma registered_and_isRetrying_never_both_witness :
  exists w,
    run example_config
      [EvInit; EvSettle 0 (Http 500 None); EvTick 0; EvSettle 0 (Http 200 None)]
      initial = Some w /\
    ~ (registered w = true /\ isRetrying w = true).
Proof.
  eexists. split.
  - vm_compute. reflexivity.
  - apply (registered_and_isRetrying_never_both example_config
             [EvInit; EvSettle 0 (Http 500 None); EvTick 0;
              EvSettle 0 (Http 200 None)]).
    vm_compute. reflexivity.
Defined.

(** ** Letting a call settle at once *)

Lemma nth_error_snoc {A} (l : list A) (x : A) :
  nth_error (l ++ [x]) (List.length l) = Some x.
Proof. induction l; cbn; auto. Qed.

Lemma remove_snoc {A} (l : list A) (x : A) :
  firstn (List.length l) (l ++ [x]) ++ skipn (S (List.length l)) (l ++ [x]) = l.
Proof. induction l; cbn; [reflexivity|]. now f_equal. Qed.

Lemma nth_error_length {A} (l : list A) : nth_error l (List.length l) = None.
Proof. induction l; cbn; auto. Qed.

Lemma and_settle_fetch cfg op r w q p :
  op w = fetch q p w ->
  and_settle cfg op r w = resume cfg p r (sent q w).
Proof.
  intros E. unfold and_settle. rewrite E. cbn.
  rewrite nth_error_snoc. f_equal.
  unfold drop_pending, sent. cbn -[firstn skipn]. now rewrite remove_snoc.
Qed.

Lemma and_settle_idle cfg op r w :
  pending (op w) = pending w -> and_settle cfg op r w = op w.
Proof.
  intros E. unfold and_settle. now rewrite E, nth_error_length.
Qed.

(** ** Shutdown *)

Lemma intervals_stopTimers w h k :
  In (h, k) (intervals (stopTimers w)) ->
  In (h, k) (intervals w) /\
  heartbeatTimer w <> Some h /\ retryTimer w <> Some h /\
  healthCheckTimer w <> Some h.
Proof.
  destruct w as [r i n [a|] [b|] [c|] l nx p f]; eval_service;
    repeat rewrite filter_In; intros H;
    repeat match goal with
           | H : _ /\ _ |- _ => destruct H
           | H : (if ?x =? ?y then false else true) = true |- _ =>
               destruct (Nat.eqb_spec x y); [discriminate H | clear H]
           end;
    repeat split; auto; congruence.
Qed.

Lemma stopTimers_fields w :
  heartbeatTimer (stopTimers w) = None /\
  retryTimer (stopTimers w) = None /\
  healthCheckTimer (stopTimers w) = None /\
  registered (stopTimers w) = registered w /\
  pending (stopTimers w) = pending w /\
  fetched (stopTimers w) = fetched w.
Proof.
  destruct w as [r i n [a|] [b|] [c|] l nx p f]; eval_service; auto 10.
Qed.

Lemma stopTimers_tracked w : tracked w -> intervals (stopTimers w) = [].
Proof.
  intros T. destruct (intervals (stopTimers w)) as [|[h k] l] eqn:E; auto.
  exfalso.
  destruct (intervals_stopTimers w h k) as (Hin & Hh & Hr & Hc);
    [rewrite E; now left|].
  specialize (T h k Hin). destruct k; congruence.
Qed.




(** ** Heartbeats *)

Lemma heartbeat_tick_registered cfg r w :
  registered w = true ->
  and_settle cfg sendHeartbeat_begin r w =
  sendHeartbeat_resume r (sent POST_heartbeat w).
Proof.
  intros R. apply (and_settle_fetch cfg sendHeartbeat_begin r w POST_heartbeat PHeartbeat).
  unfold sendHeartbeat_begin. now rewrite R.
Qed.

Lemma forceReRegister_fields w :
  let w' := forceReRegister w in
  registered w' = false /\ isRetrying w' = false /\
  consecutiveFailures w' = 0 /\ heartbeatTimer w' = None /\
  retryTimer w' = retryTimer w /\ healthCheckTimer w' = healthCheckTimer w /\
  nextHandle w' = nextHandle w /\
  fetched w' = fetched w ++ [POST_register] /\
  pending w' = pending w ++ [PRegister ByForce] /\
  (forall h, heartbeatTimer w = Some h -> ~ In h (map fst (intervals w'))) /\
  (forall h k, In (h, k) (intervals w') -> In (h, k) (intervals w)).
Proof.
  destruct w as [r i n [a|] b c l nx p f]; eval_service; repeat split; auto.
  - intros h [= <-]. rewrite in_map_iff. intros [[h k] [E Hin]].
    cbn in E. subst h. apply filter_In in Hin.
    rewrite Nat.eqb_refl in Hin. now destruct Hin.
  - intros h k Hin. now apply filter_In in Hin.
  - discriminate.
Qed.

Lemma forceReRegister_ignores_counter n w :
  forceReRegister (set_consecutiveFailures n w) = forceReRegister w.
Proof. reflexivity. Qed.

(** C3. A heartbeat sent while registered and answered 404 goes straight to
    forced re-registration, whatever the failure counter holds: in the same
    turn [registered] becomes false, the heartbeat timer is cleared and a
    register request goes out; the counter is not consulted, only reset. *)
Theorem heartbeat_404_forces_reregistration cfg body w :
  registered w = true ->
  let w' := and_settle cfg sendHeartbeat_begin (Http 404 body) w in
  w' = forceReRegister (sent POST_heartbeat w) /\
  registered w' = false /\
  heartbeatTimer w' = None /\
  (forall h, heartbeatTimer w = Some h -> ~ In h (map fst (intervals w'))) /\
  fetched w' = fetched w ++ [POST_heartbeat; POST_register] /\
  pending w' = pending w ++ [PRegister ByForce] /\
  consecutiveFailures w' = 0 /\
  (forall n, and_settle cfg sendHeartbeat_begin (Http 404 body)
               (set_consecutiveFailures n w) = w').
Proof.
  intros R w'.
  assert (E : w' = forceReRegister (sent POST_heartbeat w)).
  { unfold w'. now rewrite heartbeat_tick_registered. }
  destruct (forceReRegister_fields (sent POST_heartbeat w))
    as (Hr & _ & Hc & Hh & _ & _ & _ & Hf & Hp & Hl & _).
  rewrite E. repeat split; auto.
  - rewrite Hf. cbn. now rewrite <- app_assoc.
  - intros n. rewrite heartbeat_tick_registered by exact R. reflexivity.
Qed.

Lemma heartbeat_404_forces_reregistration_witness :
  let w0 := mkWorld true false 0 (Some 0) None (Some 1)
              [(0, HeartbeatCb); (1, HealthCheckCb)] 2 [] [POST_register] in
  let w' := and_settle example_config sendHeartbeat_begin (Http 404 None) w0 in
  registered w' = false /\
  fetched w' = [POST_register; POST_heartbeat; POST_register].
Proof.
  intros w0 w'.
  pose proof (heartbeat_404_forces_reregistration example_config None w0
                eq_refl) as H.
  split; apply H.
Defined.

Lemma generic_failure_resume r w :
  generic_failure r = true ->
  sendHeartbeat_resume r w = handleHeartbeatFailure w.
Proof.
  destruct r as [|st b]; cbn; [reflexivity|].
  destruct (ok st); cbn; [discriminate|].
  destruct (st =? 404)%Z; cbn; [discriminate|reflexivity].
Qed.

Lemma handleHeartbeatFailure_below w :
  S (consecutiveFailures w) < maxConsecutiveFailures ->
  handleHeartbeatFailure w =
  set_consecutiveFailures (S (consecutiveFailures w)) w.
Proof.
  intros H. unfold handleHeartbeatFailure. cbn -[Nat.leb].
  destruct (Nat.leb_spec maxConsecutiveFailures (S (consecutiveFailures w)));
    [lia|reflexivity].
Qed.

Lemma handleHeartbeatFailure_reached w :
  maxConsecutiveFailures <= S (consecutiveFailures w) ->
  handleHeartbeatFailure w =
  forceReRegister (set_consecutiveFailures (S (consecutiveFailures w)) w).
Proof.
  intros H. unfold handleHeartbeatFailure. cbn -[Nat.leb].
  destruct (Nat.leb_spec maxConsecutiveFailures (S (consecutiveFailures w)));
    [reflexivity|lia].
Qed.

(** C4. From a registered service with a zero counter, two heartbeats in a
    row that fail generically only count: the service is still registered,
    its timers are untouched and no register request has gone out.  The
    third such failure forces re-registration. *)
Theorem three_generic_failures_force_reregistration cfg r1 r2 r3 w :
  registered w = true ->
  consecutiveFailures w = 0 ->
  generic_failure r1 = true ->
  generic_failure r2 = true ->
  generic_failure r3 = true ->
  let beat := and_settle cfg sendHeartbeat_begin in
  let w2 := beat r2 (beat r1 w) in
  let w3 := beat r3 w2 in
  (registered w2 = true /\ consecutiveFailures w2 = 2 /\
   heartbeatTimer w2 = heartbeatTimer w /\ intervals w2 = intervals w /\
   pending w2 = pending w /\
   fetched w2 = fetched w ++ [POST_heartbeat; POST_heartbeat]) /\
  (w3 = forceReRegister (set_consecutiveFailures 3 (sent POST_heartbeat w2)) /\
   registered w3 = false /\ consecutiveFailures w3 = 0 /\
   heartbeatTimer w3 = None /\
   pending w3 = pending w ++ [PRegister ByForce] /\
   fetched w3 = fetched w2 ++ [POST_heartbeat; POST_register]).
Proof.
  intros R C G1 G2 G3 beat w2 w3.
  assert (E1 : beat r1 w = set_consecutiveFailures 1 (sent POST_heartbeat w)).
  { unfold beat. rewrite heartbeat_tick_registered, generic_failure_resume by assumption.
    rewrite handleHeartbeatFailure_below; cbn; rewrite C;
      [reflexivity | unfold maxConsecutiveFailures; lia]. }
  assert (E2 : w2 = set_consecutiveFailures 2
                      (sent POST_heartbeat (sent POST_heartbeat w))).
  { unfold w2. rewrite E1. unfold beat.
    rewrite heartbeat_tick_registered, generic_failure_resume by assumption.
    rewrite handleHeartbeatFailure_below;
      [reflexivity | cbn; unfold maxConsecutiveFailures; lia]. }
  assert (E3 : w3 = forceReRegister
                      (set_consecutiveFailures 3 (sent POST_heartbeat w2))).
  { unfold w3, beat. rewrite E2.
    rewrite heartbeat_tick_registered, generic_failure_resume by assumption.
    rewrite handleHeartbeatFailure_reached;
      [reflexivity | cbn; unfold maxConsecutiveFailures; lia]. }
  split.
  - rewrite E2. cbn. rewrite <- app_assoc. auto 10.
  - destruct (forceReRegister_fields
                (set_consecutiveFailures 3 (sent POST_heartbeat w2)))
      as (Hr & _ & Hc & Hh & _ & _ & _ & Hf & Hp & _).
    rewrite E3. repeat split; auto.
    + rewrite Hp, E2. reflexivity.
    + rewrite Hf. cbn. now rewrite <- app_assoc.
Qed.

Lemma three_generic_failures_force_reregistration_witness :
  let w0 := mkWorld true false 0 (Some 0) None (Some 1)
              [(0, HeartbeatCb); (1, HealthCheckCb)] 2 [] [POST_register] in
  let beat := and_settle example_config sendHeartbeat_begin in
  let w2 := beat (Http 503 None) (beat Threw w0) in
  let w3 := beat Threw w2 in
  (registered w2 = true /\ consecutiveFailures w2 = 2) /\
  (registered w3 = false /\ pending w3 = [PRegister ByForce]).
Proof.
  intros w0 beat w2 w3.
  pose proof (three_generic_failures_force_reregistration example_config
                Threw (Http 503 None) Threw w0
                eq_refl eq_refl eq_refl eq_refl eq_refl) as [H2 H3].
  split; split; first [apply H2 | apply H3].
Defined.

(** ** Health check *)

Lemma listed_rawInstances data l :
  listed data = Some l -> rawInstances data = Json.Arr l.
Proof.
  destruct data as [| | | |items|m]; cbn; try discriminate.
  - now intros [= ->].
  - destruct (Json.assoc_last "instances" m) as [[| | | |items|m']|];
      try discriminate.
    now intros [= ->].
Qed.

Lemma is_this_instance_spec id inst :
  is_this_instance id inst = true <->
  Json.prop "instanceId" inst = Some (Json.Str id).
Proof.
  unfold is_this_instance.
  destruct (Json.prop "instanceId" inst) as [[| | |s| |]|];
    try (split; [discriminate|intros [=]]).
  rewrite String.eqb_eq. split; [now intros ->|now intros [= ->]].
Qed.

Lemma health_check_registered cfg r w :
  registered w = true ->
  and_settle cfg verifyRegistration_begin r w =
  verifyRegistration_resume cfg r (sent GET_registry w).
Proof.
  intros R. apply (and_settle_fetch cfg verifyRegistration_begin r w GET_registry PVerify).
  unfold verifyRegistration_begin. now rewrite R.
Qed.

(** What a forced re-registration does to a world in which the request [q]
    has just been answered. *)
Lemma forced_after q w :
  let w' := forceReRegister (sent q w) in
  registered w' = false /\
  isRetrying w' = false /\
  consecutiveFailures w' = 0 /\
  heartbeatTimer w' = None /\
  (forall h, heartbeatTimer w = Some h -> ~ In h (map fst (intervals w'))) /\
  fetched w' = fetched w ++ [q; POST_register] /\
  pending w' = pending w ++ [PRegister ByForce].
Proof.
  destruct (forceReRegister_fields (sent q w))
    as (Hr & Hi & Hc & Hh & _ & _ & _ & Hf & Hp & Hl & _).
  cbv zeta. repeat split; auto.
  rewrite Hf. cbn. now rewrite <- app_assoc.
Qed.

(** C5. A health check sent while registered: a rejected call or a non-2xx
    answer changes nothing; a 2xx answer whose list (the array itself, or the
    [instances] array of the object) has a record carrying this instance's
    id changes nothing; a 2xx answer whose list has no such record forces
    re-registration: in the same turn [registered] becomes false, the
    heartbeat timer is cleared and a register request goes out. *)
Theorem health_check_outcomes cfg w :
  registered w = true ->
  let check r := and_settle cfg verifyRegistration_begin r w in
  (check Threw = sent GET_registry w /\ registered (check Threw) = true) /\
  (forall st body, ok st = false ->
     check (Http st body) = sent GET_registry w /\
     registered (check (Http st body)) = true) /\
  (forall st data l,
      ok st = true -> listed data = Some l ->
      (exists inst, In inst l /\
         Json.prop "instanceId" inst = Some (Json.Str (instanceId cfg))) ->
      check (Http st (Some data)) = sent GET_registry w /\
      registered (check (Http st (Some data))) = true) /\
  (forall st data l,
      ok st = true -> listed data = Some l ->
      (forall inst, In inst l ->
         Json.prop "instanceId" inst <> Some (Json.Str (instanceId cfg))) ->
      let w' := check (Http st (Some data)) in
      w' = forceReRegister (sent GET_registry w) /\
      registered w' = false /\
      isRetrying w' = false /\
      consecutiveFailures w' = 0 /\
      heartbeatTimer w' = None /\
      (forall h, heartbeatTimer w = Some h ->
         ~ In h (map fst (intervals w'))) /\
      fetched w' = fetched w ++ [GET_registry; POST_register] /\
      pending w' = pending w ++ [PRegister ByForce]).
Proof.
  intros R check. unfold check.
  assert (Same : forall r,
            and_settle cfg verifyRegistration_begin r w = sent GET_registry w ->
            and_settle cfg verifyRegistration_begin r w = sent GET_registry w /\
            registered (and_settle cfg verifyRegistration_begin r w) = true).
  { intros r E. split; [exact E|]. rewrite E. exact R. }
  split; [|split; [|split]].
  - apply Same. now rewrite health_check_registered.
  - intros st body Hok. apply Same.
    rewrite health_check_registered by exact R.
    cbn. now rewrite Hok.
  - intros st data l Hok Hl (inst & Hin & Hid). apply Same.
    rewrite health_check_registered by exact R.
    cbn. rewrite Hok, (listed_rawInstances _ _ Hl). cbn.
    assert (E : existsb (is_this_instance (instanceId cfg)) l = true).
    { apply existsb_exists. exists inst. split; [exact Hin|].
      now apply is_this_instance_spec. }
    now rewrite E.
  - intros st data l Hok Hl Hnone.
    assert (E : and_settle cfg verifyRegistration_begin (Http st (Some data)) w
                = forceReRegister (sent GET_registry w)).
    { rewrite health_check_registered by exact R.
      cbn. rewrite Hok, (listed_rawInstances _ _ Hl). cbn.
      assert (E : existsb (is_this_instance (instanceId cfg)) l = false).
      { apply not_true_is_false. intros H. apply existsb_exists in H.
        destruct H as (inst & Hin & Hid). apply (Hnone inst Hin).
        now apply is_this_instance_spec. }
      now rewrite E. }
    cbv zeta. rewrite E. split; [reflexivity|].
    exact (forced_after GET_registry w).
Qed.

Lemma health_check_outcomes_witness :
  let w0 := mkWorld true false 1 (Some 0) None (Some 1)
              [(0, HeartbeatCb); (1, HealthCheckCb)] 2 [] [POST_register] in
  let check r := and_settle example_config verifyRegistration_begin r w0 in
  let mine := Json.Obj [("instanceId", Json.Str "booking-1a2b3c4d")] in
  let other := Json.Obj [("instanceId", Json.Str "booking-99999999")] in
  check (Http 502 None) = sent GET_registry w0 /\
  check (Http 200 (Some (Json.Obj [("instances", Json.Arr [other; mine])])))
    = sent GET_registry w0 /\
  registered (check (Http 200 (Some (Json.Arr [other])))) = false /\
  fetched (check (Http 200 (Some (Json.Arr [other]))))
    = [POST_register; GET_registry; POST_register].
Proof.
  intros w0 check mine other.
  pose proof (health_check_outcomes example_config w0 eq_refl)
    as (_ & Hdown & Hpresent & Habsent).
  split; [|split].
  - apply Hdown. reflexivity.
  - apply (Hpresent 200%Z _ [other; mine]); [reflexivity|reflexivity|].
    exists mine. split; [right; left; reflexivity|reflexivity].
  - assert (A : forall inst, In inst [other] ->
                  Json.prop "instanceId" inst <>
                  Some (Json.Str (instanceId example_config))).
    { intros inst [<-|[]]. discriminate. }
    destruct (Habsent 200%Z (Json.Arr [other]) [other] eq_refl eq_refl A)
      as (_ & Hr & _ & _ & _ & _ & Hf & _).
    split; [exact Hr|exact Hf].
Defined.

(** C10 (amended). On a 2xx health-check answer, a body that is not an
    array and whose [instances] member is missing or falsy counts as an
    empty list and forces re-registration: [registered] becomes false, the
    heartbeat timer is cleared and a register request goes out.  A body
    that is not an array and whose [instances] member is truthy without
    being an array raises inside the handler, and a body that is not JSON
    makes [response.json()] reject: both are caught and change nothing,
    the service stays registered and sends nothing more. *)
Theorem health_check_odd_bodies cfg st w :
  registered w = true ->
  ok st = true ->
  let check r := and_settle cfg verifyRegistration_begin r w in
  (forall data, is_array data = false -> no_instances data = true ->
     let w' := check (Http st (Some data)) in
     w' = forceReRegister (sent GET_registry w) /\
     registered w' = false /\
     isRetrying w' = false /\
     consecutiveFailures w' = 0 /\
     heartbeatTimer w' = None /\
     (forall h, heartbeatTimer w = Some h ->
        ~ In h (map fst (intervals w'))) /\
     fetched w' = fetched w ++ [GET_registry; POST_register] /\
     pending w' = pending w ++ [PRegister ByForce]) /\
  (forall data, is_array data = false -> odd_instances data = true ->
     let w' := check (Http st (Some data)) in
     w' = sent GET_registry w /\
     registered w' = true /\
     heartbeatTimer w' = heartbeatTimer w /\
     intervals w' = intervals w /\
     fetched w' = fetched w ++ [GET_registry] /\
     pending w' = pending w) /\
  (let w' := check (Http st None) in
   w' = sent GET_registry w /\
   registered w' = true /\
   heartbeatTimer w' = heartbeatTimer w /\
   intervals w' = intervals w /\
   fetched w' = fetched w ++ [GET_registry] /\
   pending w' = pending w).
Proof.
  intros R Hok check. unfold check.
  assert (Same : forall r,
            and_settle cfg verifyRegistration_begin r w = sent GET_registry w ->
            let w' := and_settle cfg verifyRegistration_begin r w in
            w' = sent GET_registry w /\
            registered w' = true /\
            heartbeatTimer w' = heartbeatTimer w /\
            intervals w' = intervals w /\
            fetched w' = fetched w ++ [GET_registry] /\
            pending w' = pending w).
  { intros r E. cbv zeta. rewrite E. repeat split. exact R. }
  split; [|split].
  - intros data Ha Hn.
    assert (E : and_settle cfg verifyRegistration_begin (Http st (Some data)) w
                = forceReRegister (sent GET_registry w)).
    { rewrite health_check_registered by exact R.
      cbn. rewrite Hok. cbn.
      unfold rawInstances, no_instances in *.
      destruct data as [| | | |items|m]; cbn in *; try discriminate;
        try reflexivity.
      destruct (Json.assoc_last "instances" m) as [v|]; [|reflexivity].
      apply negb_true_iff in Hn. rewrite Hn. reflexivity. }
    cbv zeta. rewrite E. split; [reflexivity|].
    exact (forced_after GET_registry w).
  - intros data Ha Ho. apply Same.
    rewrite health_check_registered by exact R.
    cbn. rewrite Hok. cbn.
    unfold rawInstances, odd_instances in *.
    destruct data as [| | | |items|m]; cbn in *; try discriminate.
    destruct (Json.assoc_last "instances" m) as [v|]; [|discriminate].
    apply andb_true_iff in Ho. destruct Ho as [Ht Hv]. rewrite Ht.
    destruct v; cbn in *; try discriminate; reflexivity.
  - apply Same. rewrite health_check_registered by exact R.
    cbn. now rewrite Hok.
Qed.

Lemma health_check_odd_bodies_witness :
  let w0 := mkWorld true false 1 (Some 0) None (Some 1)
              [(0, HeartbeatCb); (1, HealthCheckCb)] 2 [] [POST_register] in
  let check r := and_settle example_config verifyRegistration_begin r w0 in
  registered (check (Http 200 (Some (Json.Obj [])))) = false /\
  fetched (check (Http 200 (Some Json.Null)))
    = [POST_register; GET_registry; POST_register] /\
  registered
    (check (Http 200 (Some (Json.Obj [("instances", Json.Str "none")]))))
    = true /\
  fetched (check (Http 200 None)) = [POST_register; GET_registry].
Proof.
  intros w0 check.
  pose proof (health_check_odd_bodies example_config 200%Z w0 eq_refl eq_refl)
    as (Hempty & Hodd & Hbad).
  split; [|split; [|split]].
  - apply (Hempty (Json.Obj [])); reflexivity.
  - apply (Hempty Json.Null); reflexivity.
  - apply (Hodd (Json.Obj [("instances", Json.Str "none")])); reflexivity.
  - apply Hbad.
Defined.

(** C10, as stated, fails: this 2xx body is neither an array nor an object
    with an [instances] array, yet it is not taken for an empty list: the
    service is left as it was, still registered, and no register request
    goes out. *)
Lemma health_check_odd_instances_not_absent :
  let w0 := mkWorld true false 1 (Some 0) None (Some 1)
              [(0, HeartbeatCb); (1, HealthCheckCb)] 2 [] [POST_register] in
  let data := Json.Obj [("instances", Json.Obj [("count", Json.Num 0)])] in
  let w' := and_settle example_config verifyRegistration_begin
              (Http 200 (Some data)) w0 in
  listed data = None /\
  is_array data = false /\
  w' = sent GET_registry w0 /\
  registered w' = true /\
  w' <> forceReRegister (sent GET_registry w0).
Proof. vm_compute. repeat split; try reflexivity. discriminate. Qed.

(** ** Registration and retry *)

Lemma handles_of_app k l l' :
  handles_of k (l ++ l') = handles_of k l ++ handles_of k l'.
Proof. unfold handles_of. now rewrite filter_app, map_app. Qed.


Lemma attempt_unregistered cfg c r w :
  registered w = false ->
  and_settle cfg (attemptRegistration_begin c) r w =
  attemptRegistration_resume c r (sent POST_register w).
Proof.
  intros R.
  apply (and_settle_fetch cfg (attemptRegistration_begin c) r w
           POST_register (PRegister c)).
  unfold attemptRegistration_begin. now rewrite R.
Qed.


Lemma retry_tick_registered w : registered w = true -> fire RetryCb w = w.
Proof. intros R. cbn. unfold retryTick. now rewrite R. Qed.



Lemma attempt_succeeds c r w :
  register_returns r = true ->
  attemptRegistration_resume c r w =
  after_attemptRegistration c
    (startHeartbeat
       (match retryTimer w with
        | Some h => set_retryTimer None
                      (clearInterval h (set_isRetrying false (set_registered true w)))
        | None => set_isRetrying false (set_registered true w)
        end)).
Proof.
  intros F. unfold attemptRegistration_resume. rewrite F.
  destruct w as [r0 i n a [b|] c0 l nx p f]; reflexivity.
Qed.



(** C9. A heartbeat callback that finds the service unregistered sends no
    heartbeat: it calls [attemptRegistration], so the only request that goes
    out is a register request; and [attemptRegistration] on a registered
    service returns at once, sending nothing. *)
Theorem sendHeartbeat_while_unregistered w :
  registered w = false ->
  sendHeartbeat_begin w = attemptRegistration_begin ByHeartbeat w /\
  fetched (sendHeartbeat_begin w) = fetched w ++ [POST_register] /\
  pending (sendHeartbeat_begin w) = pending w ++ [PRegister ByHeartbeat] /\
  (forall v, registered v = true ->
     attemptRegistration_begin ByHeartbeat v = v) /\
  (forall v c, registered v = true ->
     fetched (attemptRegistration_begin c v) = fetched v /\
     pending (attemptRegistration_begin c v) = pending v).
Proof.
  intros R. unfold sendHeartbeat_begin, attemptRegistration_begin.
  rewrite R. cbn. repeat split.
  - intros v Rv. now rewrite Rv.
  - rewrite H. now destruct c.
  - rewrite H. now destruct c.
Qed.

Lemma sendHeartbeat_while_unregistered_witness :
  let w0 := mkWorld false false 0 (Some 0) None (Some 1)
              [(0, HeartbeatCb); (1, HealthCheckCb)] 2 [] [POST_register] in
  fetched (sendHeartbeat_begin w0) = [POST_register; POST_register].
Proof.
  intros w0.
  exact (proj1 (proj2 (sendHeartbeat_while_unregistered w0 eq_refl))).
Defined.

(** ** Overlapping re-registrations *)

(** C6 fails on the code.  A heartbeat and a health check are both under
    way; the first is answered 404 and the second lists no instance, so
    [forceReRegister] runs twice in a row.  Two register requests are then
    outstanding; when both succeed each arms a heartbeat timer, and
    [startHeartbeat] overwrites the field without clearing the timer it
    held: two heartbeat timers are live, and the one no longer remembered
    survives [onModuleDestroy]. *)
Theorem overlapping_reregistrations_leak_heartbeat_timer :
  let up := Http 200 None in
  let absent := Http 200 (Some (Json.Arr [])) in
  let registered_world :=
    mkWorld true false 0 (Some 0) None (Some 1)
      [(0, HeartbeatCb); (1, HealthCheckCb)] 2 [] [POST_register] in
  let twice := forceReRegister (forceReRegister registered_world) in
  let overlap :=
    [EvInit; EvSettle 0 up; EvTick 0; EvTick 1;
     EvSettle 0 (Http 404 None); EvSettle 0 absent] in
  (in_flight is_register twice = 2 /\ live HeartbeatCb twice = []) /\
  (exists w, run example_config overlap initial = Some w /\
             in_flight is_register w = 2 /\ live HeartbeatCb w = []) /\
  (exists w, run example_config (overlap ++ [EvSettle 0 up; EvSettle 0 up])
               initial = Some w /\
             live HeartbeatCb w = [2; 3] /\ heartbeatTimer w = Some 3) /\
  (exists w, run example_config
               (overlap ++ [EvSettle 0 up; EvSettle 0 up; EvDestroy;
                            EvSettle 0 up])
               initial = Some w /\
             pending w = [] /\ live HeartbeatCb w = [2]) /\
  (forall w, live HeartbeatCb (startHeartbeat w) =
             live HeartbeatCb w ++ [nextHandle w]).
Proof.
  cbv zeta. split; [|split; [|split; [|split]]].
  - vm_compute. split; reflexivity.
  - eexists. split; [vm_compute; reflexivity|].
    vm_compute. split; reflexivity.
  - eexists. split; [vm_compute; reflexivity|].
    vm_compute. split; reflexivity.
  - eexists. split; [vm_compute; reflexivity|].
    vm_compute. split; reflexivity.
  - intros w. unfold live. destruct w. cbn -[handles_of].
    now rewrite handles_of_app.
Qed.

(** ** The failure counter *)

(** C7, as stated, fails: a health check finds the instance missing while a
    heartbeat is still under way; the heartbeat then fails and is counted,
    and the registration that succeeds afterwards leaves the counter at 1. *)
Lemma registration_succeeds_with_nonzero_counter :
  exists w1 w2,
    run example_config
      [EvInit; EvSettle 0 (Http 200 None); EvTick 0; EvTick 1;
       EvSettle 1 (Http 200 (Some (Json.Arr []))); EvSettle 0 (Http 500 None)]
      initial = Some w1 /\
    pending w1 = [PRegister ByForce] /\
    registered w1 = false /\
    step example_config (EvSettle 0 (Http 200 None)) w1 = Some w2 /\
    registered w2 = true /\
    consecutiveFailures w2 = 1.
Proof.
  eexists. eexists.
  split; [vm_compute; reflexivity|].
  split; [vm_compute; reflexivity|].
  split; [vm_compute; reflexivity|].
  split; [vm_compute; reflexivity|].
  vm_compute. split; reflexivity.
Qed.

(** C7 (amended). The counter is 0 right after a heartbeat that succeeded
    and right after [forceReRegister].  [attemptRegistration] never writes
    it: when a register call settles, the counter keeps the value it had.
    So a forced re-registration whose register call succeeds before anything
    else happens ends registered with the counter at 0, and so does the
    first registration of a fresh service. *)
Theorem consecutiveFailures_resets cfg w :
  (forall st body, ok st = true ->
     consecutiveFailures (sendHeartbeat_resume (Http st body) w) = 0) /\
  (forall st body, ok st = true -> registered w = true ->
     consecutiveFailures
       (and_settle cfg sendHeartbeat_begin (Http st body) w) = 0) /\
  consecutiveFailures (forceReRegister w) = 0 /\
  (forall c r, consecutiveFailures (attemptRegistration_resume c r w) =
               consecutiveFailures w) /\
  (forall r, register_returns r = true ->
     registered (and_settle cfg forceReRegister r w) = true /\
     consecutiveFailures (and_settle cfg forceReRegister r w) = 0) /\
  (forall r, register_returns r = true ->
     registered (and_settle cfg (onModuleInit cfg) r initial) = enabled cfg /\
     consecutiveFailures (and_settle cfg (onModuleInit cfg) r initial) = 0).
Proof.
  assert (Hkeep : forall c r v,
             consecutiveFailures (attemptRegistration_resume c r v) =
             consecutiveFailures v).
  { intros c r v. unfold attemptRegistration_resume.
    destruct (register_returns r), v as [r0 [|] n a [b|] c0 l nx p f], c;
      reflexivity. }
  assert (Hreg : forall c r v, register_returns r = true ->
             registered (attemptRegistration_resume c r v) = true).
  { intros c r v F. rewrite attempt_succeeds by exact F.
    destruct v as [r0 i n a [b|] c0 l nx p f], c; reflexivity. }
  split; [|split; [|split; [|split; [|split]]]].
  - intros st body Hok. cbn. now rewrite Hok.
  - intros st body Hok R. rewrite heartbeat_tick_registered by exact R.
    cbn. now rewrite Hok.
  - apply forceReRegister_fields.
  - intros c r. apply Hkeep.
  - intros r F.
    assert (E : and_settle cfg forceReRegister r w =
                attemptRegistration_resume ByForce r
                  (drop_pending (List.length (pending w)) (forceReRegister w))).
    { unfold and_settle.
      destruct (forceReRegister_fields w) as (_ & _ & _ & _ & _ & _ & _ & _ & Hp & _).
      rewrite Hp, nth_error_snoc. reflexivity. }
    rewrite E. split; [now apply Hreg|].
    rewrite Hkeep. cbn. apply forceReRegister_fields.
  - intros r F. destruct (enabled cfg) eqn:En.
    + assert (E : and_settle cfg (onModuleInit cfg) r initial =
                  and_settle cfg (attemptRegistration_begin ByInit) r initial)
        by (unfold and_settle, onModuleInit; rewrite En; reflexivity).
      rewrite E, attempt_unregistered by reflexivity.
      split; [now apply Hreg|now rewrite Hkeep].
    + unfold and_settle, onModuleInit. rewrite En. split; reflexivity.
Qed.

Lemma consecutiveFailures_resets_witness :
  let w0 := mkWorld true false 2 (Some 0) None (Some 1)
              [(0, HeartbeatCb); (1, HealthCheckCb)] 2 [] [POST_register] in
  consecutiveFailures
    (and_settle example_config sendHeartbeat_begin (Http 204 None) w0) = 0 /\
  registered (and_settle example_config forceReRegister (Http 201 None) w0)
    = true /\
  consecutiveFailures
    (and_settle example_config forceReRegister (Http 201 None) w0) = 0.
Proof.
  intros w0.
  pose proof (consecutiveFailures_resets example_config w0)
    as (_ & Hbeat & _ & _ & Hforce & _).
  split; [apply Hbeat; reflexivity|apply Hforce; reflexivity].
Defined.

(** * Further properties of the registration agent *)

(** ** A disabled agent *)

(** With [GATEWAY_REGISTRY_ENABLED=false] the service stays exactly as it
    was constructed, whatever the framework calls: it sends no request and
    arms no timer, so no tick and no settlement can ever happen. *)
Theorem disabled_service_is_inert cfg es w :
  enabled cfg = false ->
  run cfg es initial = Some w ->
  w = initial.
Proof.
  intros En. induction es as [|e es IH]; cbn.
  - now intros [= <-].
  - assert (S : step cfg e initial = Some initial \/ step cfg e initial = None).
    { destruct e as [| |h|[|i] r]; cbn; auto.
      left. unfold onModuleInit. now rewrite En. }
    destruct S as [-> | ->]; [exact IH|discriminate].
Qed.

Lemma disabled_service_is_inert_witness :
  exists w,
    run disabled_config [EvInit; EvDestroy; EvInit] initial = Some w /\
    w = initial.
Proof.
  eexists. split.
  - vm_compute. reflexivity.
  - apply (disabled_service_is_inert disabled_config
             [EvInit; EvDestroy; EvInit]); reflexivity.
Defined.

(** ** The failure counter stays below the threshold *)

Lemma below_threshold_attemptRegistration_begin c w :
  below_threshold w -> below_threshold (attemptRegistration_begin c w).
Proof.
  unfold below_threshold, attemptRegistration_begin.
  destruct (registered w), c; auto.
Qed.

Lemma consecutiveFailures_attemptRegistration_resume c r w :
  consecutiveFailures (attemptRegistration_resume c r w) =
  consecutiveFailures w.
Proof.
  unfold attemptRegistration_resume.
  destruct (register_returns r), w as [r0 [|] n a [b|] c0 l nx p f], c;
    reflexivity.
Qed.

Lemma below_threshold_forceReRegister w : below_threshold (forceReRegister w).
Proof.
  unfold below_threshold.
  destruct w as [r0 i n [a|] b c0 l nx p f]; cbn;
    unfold maxConsecutiveFailures; lia.
Qed.

Lemma below_threshold_handleHeartbeatFailure w :
  below_threshold (handleHeartbeatFailure w).
Proof.
  unfold handleHeartbeatFailure. cbn -[Nat.leb].
  destruct (Nat.leb_spec maxConsecutiveFailures (S (consecutiveFailures w))).
  - apply below_threshold_forceReRegister.
  - exact H.
Qed.

Lemma below_threshold_resume cfg p r w :
  below_threshold w -> below_threshold (resume cfg p r w).
Proof.
  intros H. destruct p; cbn.
  - unfold below_threshold.
    now rewrite consecutiveFailures_attemptRegistration_resume.
  - unfold sendHeartbeat_resume. destruct r as [|st b].
    + apply below_threshold_handleHeartbeatFailure.
    + destruct (ok st); [unfold below_threshold, maxConsecutiveFailures; cbn; lia|].
      destruct (st =? 404)%Z;
        [apply below_threshold_forceReRegister
        |apply below_threshold_handleHeartbeatFailure].
  - unfold verifyRegistration_resume. destruct r as [|st b]; [exact H|].
    destruct (negb (ok st)); [exact H|].
    destruct b as [data|]; [|exact H].
    destruct (some_instance _ _) as [[|]|]; cbn; auto.
    apply below_threshold_forceReRegister.
  - unfold onModuleDestroy_resume. destruct r; exact H.
Qed.

Lemma below_threshold_fire k w :
  below_threshold w -> below_threshold (fire k w).
Proof.
  intros H. destruct k; cbn.
  - unfold sendHeartbeat_begin. destruct (negb (registered w)).
    + now apply below_threshold_attemptRegistration_begin.
    + exact H.
  - unfold retryTick. destruct (negb (registered w)).
    + now apply below_threshold_attemptRegistration_begin.
    + exact H.
  - unfold verifyRegistration_begin. destruct (negb (registered w)); exact H.
Qed.

Lemma below_threshold_step cfg e w w' :
  below_threshold w -> step cfg e w = Some w' -> below_threshold w'.
Proof.
  intros H. destruct e as [| |h|i r]; cbn.
  - intros [= <-]. unfold onModuleInit. destruct (negb (enabled cfg)).
    + exact H.
    + now apply below_threshold_attemptRegistration_begin.
  - intros [= <-]. unfold onModuleDestroy_begin.
    assert (Hs : below_threshold (stopTimers w))
      by (destruct w as [r0 i n [a|] [b|] [c0|] l nx p f]; exact H).
    destruct (registered (stopTimers w)); exact Hs.
  - destruct (kind_of h (intervals w)) as [k|]; [|discriminate].
    intros [= <-]. now apply below_threshold_fire.
  - destruct (nth_error (pending w) i) as [p|]; [|discriminate].
    intros [= <-]. now apply below_threshold_resume.
Qed.

(** Between any two turns of the event loop [consecutiveFailures] is below
    [maxConsecutiveFailures]: the failure that would make it reach 3 resets
    it to 0 in the same turn. *)
Theorem consecutiveFailures_below_threshold cfg es w :
  run cfg es initial = Some w ->
  consecutiveFailures w < maxConsecutiveFailures.
Proof.
  assert (G : forall w0, below_threshold w0 ->
                run cfg es w0 = Some w -> below_threshold w).
  { induction es as [|e es IH]; cbn; intros w0 H0.
    - now intros [= <-].
    - destruct (step cfg e w0) as [w1|] eqn:E; [|discriminate].
      apply IH. eapply below_threshold_step; eauto. }
  apply G. unfold below_threshold, maxConsecutiveFailures. cbn. lia.
Qed.

Lemma consecutiveFailures_below_threshold_witness :
  exists w,
    run example_config
      [EvInit; EvSettle 0 (Http 200 None); EvTick 0; EvSettle 0 Threw;
       EvTick 0; EvSettle 0 (Http 500 None); EvTick 0; EvSettle 0 Threw]
      initial = Some w /\
    consecutiveFailures w < maxConsecutiveFailures.
Proof.
  eexists. split.
  - vm_compute. reflexivity.
  - apply (consecutiveFailures_below_threshold example_config
             [EvInit; EvSettle 0 (Http 200 None); EvTick 0; EvSettle 0 Threw;
              EvTick 0; EvSettle 0 (Http 500 None); EvTick 0; EvSettle 0 Threw]).
    vm_compute. reflexivity.
Defined.

(** ** Timer handles *)

Lemma fresh_snoc (l : list (Handle * TimerKind)) nx k :
  NoDup (map fst l) ->
  (forall h, In h (map fst l) -> h < nx) ->
  NoDup (map fst (l ++ [(nx, k)])) /\
  (forall h, In h (map fst (l ++ [(nx, k)])) -> h < S nx).
Proof.
  intros N B. rewrite map_app. cbn. split.
  - apply NoDup_app; [exact N|repeat constructor; intros []|].
    intros h Hin [E|[]]. subst h. specialize (B nx Hin). lia.
  - intros h Hin. apply in_app_or in Hin. destruct Hin as [Hin|[<-|[]]].
    + specialize (B h Hin). lia.
    + lia.
Qed.

Lemma NoDup_map_filter {A B} (g : A -> B) (f : A -> bool) (l : list A) :
  NoDup (map g l) -> NoDup (map g (filter f l)).
Proof.
  induction l as [|a l IH]; cbn; [auto|].
  intros N. inversion N as [|x xs Hnot N']; subst.
  destruct (f a); cbn; [|auto].
  constructor; [|auto].
  intros Hin. apply Hnot. apply in_map_iff in Hin.
  destruct Hin as (y & E & Hy). apply filter_In in Hy.
  apply in_map_iff. exists y. tauto.
Qed.

Lemma in_map_filter {A B} (g : A -> B) (f : A -> bool) (l : list A) b :
  In b (map g (filter f l)) -> In b (map g l).
Proof.
  intros Hin. apply in_map_iff in Hin. destruct Hin as (y & E & Hy).
  apply filter_In in Hy. apply in_map_iff. exists y. tauto.
Qed.

Lemma same_handle_same_kind (l : list (Handle * TimerKind)) h k k' :
  NoDup (map fst l) -> In (h, k) l -> In (h, k') l -> k = k'.
Proof.
  induction l as [|[h0 k0] l IH]; cbn; [intros _ []|].
  intros N. inversion N as [|x xs Hnot N']; subst.
  intros [E|Hin] [E'|Hin'].
  - congruence.
  - inversion E; subst. exfalso. apply Hnot.
    apply in_map_iff. exists (h, k'). auto.
  - inversion E'; subst. exfalso. apply Hnot.
    apply in_map_iff. exists (h, k). auto.
  - eauto.
Qed.

Lemma kind_of_in (l : list (Handle * TimerKind)) h k :
  NoDup (map fst l) -> In (h, k) l -> kind_of h l = Some k.
Proof.
  induction l as [|[h0 k0] l IH]; cbn; [intros _ []|].
  intros N. inversion N as [|x xs Hnot N']; subst.
  intros [E|Hin].
  - inversion E; subst. now rewrite Nat.eqb_refl.
  - destruct (Nat.eqb_spec h0 h) as [->|Hne]; [|auto].
    exfalso. apply Hnot. apply in_map_iff. exists (h, k). auto.
Qed.

Lemma survives_clear (l : list (Handle * TimerKind)) h k h' :
  In (h, k) l -> h <> h' ->
  In (h, k) (filter (fun p => negb (fst p =? h')) l).
Proof.
  intros Hin Hne. apply filter_In. split; [exact Hin|].
  cbn. apply negb_true_iff. now apply Nat.eqb_neq.
Qed.

Lemma sound_same_timers w w' : same_timers w w' -> sound w -> sound w'.
Proof.
  intros (Ei & En & Eh & Er & Ec) [[N B] (Lh & Lr & Lc)].
  unfold sound, handles_fresh, fields_live.
  rewrite Ei, En, Eh, Er, Ec. auto 10.
Qed.

(** Arming a timer of kind [k] and remembering it in the field of that kind. *)
Lemma sound_arm w k :
  sound w ->
  sound (let (h, w1) := setInterval k w in
         match k with
         | HeartbeatCb => set_heartbeatTimer (Some h) w1
         | RetryCb => set_retryTimer (Some h) w1
         | HealthCheckCb => set_healthCheckTimer (Some h) w1
         end).
Proof.
  intros [[N B] (Lh & Lr & Lc)].
  destruct (fresh_snoc (intervals w) (nextHandle w) k N B) as [N' B'].
  destruct w as [r0 i n a b c l nx p f]; cbn in *.
  destruct k; cbn; (split; [split; assumption|]); repeat split; cbn;
    intros h E;
    try (inversion E; subst; apply in_or_app; right; left; reflexivity);
    apply in_or_app; left; auto.
Qed.

(** Clearing the timer a field names and forgetting it. *)
Lemma sound_disarm w k h :
  sound w ->
  match k with
  | HeartbeatCb => heartbeatTimer w
  | RetryCb => retryTimer w
  | HealthCheckCb => healthCheckTimer w
  end = Some h ->
  sound (match k with
         | HeartbeatCb => set_heartbeatTimer None (clearInterval h w)
         | RetryCb => set_retryTimer None (clearInterval h w)
         | HealthCheckCb => set_healthCheckTimer None (clearInterval h w)
         end).
Proof.
  intros [[N B] (Lh & Lr & Lc)] E.
  assert (D : forall h' k', In (h', k') (intervals w) -> k' <> k -> h' <> h).
  { intros h' k' Hin Hk ->. apply Hk.
    apply (same_handle_same_kind (intervals w) h k' k N Hin).
    destruct k; auto. }
  destruct w as [r0 i n a b c l nx p f]; cbn in *.
  destruct k; cbn; (split; [split|]); cbn;
    try (apply NoDup_map_filter; assumption);
    try (intros h' Hin; apply B; eapply in_map_filter; exact Hin);
    repeat split; cbn; intros h' E';
    try discriminate;
    apply survives_clear; auto;
    eapply D; eauto; discriminate.
Qed.

Lemma sound_set_registered b w : sound w -> sound (set_registered b w).
Proof. apply sound_same_timers. repeat split. Qed.

Lemma sound_set_isRetrying b w : sound w -> sound (set_isRetrying b w).
Proof. apply sound_same_timers. repeat split. Qed.

Lemma sound_set_consecutiveFailures n w :
  sound w -> sound (set_consecutiveFailures n w).
Proof. apply sound_same_timers. repeat split. Qed.

Lemma sound_fetch q p w : sound w -> sound (fetch q p w).
Proof. apply sound_same_timers. repeat split. Qed.

Lemma sound_drop_pending i w : sound w -> sound (drop_pending i w).
Proof. apply sound_same_timers. repeat split. Qed.

Lemma sound_startHeartbeat w : sound w -> sound (startHeartbeat w).
Proof. exact (sound_arm w HeartbeatCb). Qed.

Lemma sound_startHealthCheck w : sound w -> sound (startHealthCheck w).
Proof. exact (sound_arm w HealthCheckCb). Qed.

Lemma sound_clear_heartbeat w :
  sound w ->
  sound (match heartbeatTimer w with
         | Some h => set_heartbeatTimer None (clearInterval h w)
         | None => w
         end).
Proof.
  intros S. destruct (heartbeatTimer w) as [h|] eqn:E; [|exact S].
  exact (sound_disarm w HeartbeatCb h S E).
Qed.

Lemma sound_clear_retry w :
  sound w ->
  sound (match retryTimer w with
         | Some h => set_retryTimer None (clearInterval h w)
         | None => w
         end).
Proof.
  intros S. destruct (retryTimer w) as [h|] eqn:E; [|exact S].
  exact (sound_disarm w RetryCb h S E).
Qed.

Lemma sound_clear_healthCheck w :
  sound w ->
  sound (match healthCheckTimer w with
         | Some h => set_healthCheckTimer None (clearInterval h w)
         | None => w
         end).
Proof.
  intros S. destruct (healthCheckTimer w) as [h|] eqn:E; [|exact S].
  exact (sound_disarm w HealthCheckCb h S E).
Qed.

Lemma sound_stopTimers w : sound w -> sound (stopTimers w).
Proof.
  intros S. unfold stopTimers. cbv zeta.
  apply sound_clear_healthCheck, sound_clear_heartbeat, sound_clear_retry, S.
Qed.

Lemma sound_after_attemptRegistration c w :
  sound w -> sound (after_attemptRegistration c w).
Proof.
  intros S. destruct c; try exact S. now apply sound_startHealthCheck.
Qed.

Lemma sound_attemptRegistration_begin c w :
  sound w -> sound (attemptRegistration_begin c w).
Proof.
  intros S. unfold attemptRegistration_begin. destruct (registered w).
  - now apply sound_after_attemptRegistration.
  - now apply sound_fetch.
Qed.

Lemma sound_attemptRegistration_resume c r w :
  sound w -> sound (attemptRegistration_resume c r w).
Proof.
  intros S. unfold attemptRegistration_resume. cbv zeta.
  apply sound_after_attemptRegistration.
  destruct (register_returns r).
  - apply sound_startHeartbeat, sound_clear_retry, sound_set_isRetrying,
      sound_set_registered, S.
  - destruct (negb (isRetrying (set_registered false w))).
    + apply (sound_arm (set_isRetrying true (set_registered false w)) RetryCb).
      apply sound_set_isRetrying, sound_set_registered, S.
    + apply sound_set_registered, S.
Qed.

Lemma sound_forceReRegister w : sound w -> sound (forceReRegister w).
Proof.
  intros S. unfold forceReRegister. cbv zeta.
  apply sound_attemptRegistration_begin, sound_clear_heartbeat,
    sound_set_isRetrying, sound_set_consecutiveFailures,
    sound_set_registered, S.
Qed.

Lemma sound_handleHeartbeatFailure w :
  sound w -> sound (handleHeartbeatFailure w).
Proof.
  intros S. unfold handleHeartbeatFailure. cbv zeta.
  destruct (Nat.leb _ _).
  - apply sound_forceReRegister, sound_set_consecutiveFailures, S.
  - apply sound_set_consecutiveFailures, S.
Qed.

Lemma sound_resume cfg p r w : sound w -> sound (resume cfg p r w).
Proof.
  intros S. destruct p; cbn.
  - now apply sound_attemptRegistration_resume.
  - unfold sendHeartbeat_resume. destruct r as [|st b].
    + now apply sound_handleHeartbeatFailure.
    + destruct (ok st); [now apply sound_set_consecutiveFailures|].
      destruct (st =? 404)%Z;
        [now apply sound_forceReRegister
        |now apply sound_handleHeartbeatFailure].
  - unfold verifyRegistration_resume. destruct r as [|st b]; [exact S|].
    destruct (negb (ok st)); [exact S|].
    destruct b as [data|]; [|exact S].
    destruct (some_instance _ _) as [[|]|]; cbn; auto.
    now apply sound_forceReRegister.
  - unfold onModuleDestroy_resume. destruct r; [exact S|].
    now apply sound_set_registered.
Qed.

Lemma sound_fire k w : sound w -> sound (fire k w).
Proof.
  intros S. destruct k; cbn.
  - unfold sendHeartbeat_begin. destruct (negb (registered w)).
    + now apply sound_attemptRegistration_begin.
    + now apply sound_fetch.
  - unfold retryTick. destruct (negb (registered w)).
    + now apply sound_attemptRegistration_begin.
    + exact S.
  - unfold verifyRegistration_begin. destruct (negb (registered w)).
    + exact S.
    + now apply sound_fetch.
Qed.

Lemma sound_step cfg e w w' : sound w -> step cfg e w = Some w' -> sound w'.
Proof.
  intros S. destruct e as [| |h|i r]; cbn.
  - intros [= <-]. unfold onModuleInit. destruct (negb (enabled cfg)).
    + exact S.
    + now apply sound_attemptRegistration_begin.
  - intros [= <-]. unfold onModuleDestroy_begin. cbv zeta.
    pose proof (sound_stopTimers w S) as Ss.
    destruct (registered (stopTimers w)); [now apply sound_fetch|exact Ss].
  - destruct (kind_of h (intervals w)) as [k|]; [|discriminate].
    intros [= <-]. now apply sound_fire.
  - destruct (nth_error (pending w) i) as [p|]; [|discriminate].
    intros [= <-]. now apply sound_resume, sound_drop_pending.
Qed.

Lemma sound_run cfg es : forall w w',
  sound w -> run cfg es w = Some w' -> sound w'.
Proof.
  induction es as [|e es IH]; cbn; intros w w' S.
  - now intros [= <-].
  - destruct (step cfg e w) as [w1|] eqn:E; [|discriminate].
    apply IH. eapply sound_step; eauto.
Qed.

Lemma sound_initial : sound initial.
Proof.
  repeat split; cbn; try constructor; try discriminate; intros h [].
Qed.

(** Whatever happens, a timer field that is set names a timer that is still
    live and that runs the callback of the field's kind, so [clearInterval]
    on it always stops exactly that callback: the service never keeps the
    handle of a timer it has cleared. *)
Theorem timer_fields_name_live_timers cfg es w :
  run cfg es initial = Some w ->
  (forall h, heartbeatTimer w = Some h ->
     In h (live HeartbeatCb w) /\
     step cfg (EvTick h) w = Some (sendHeartbeat_begin w)) /\
  (forall h, retryTimer w = Some h ->
     In h (live RetryCb w) /\ step cfg (EvTick h) w = Some (retryTick w)) /\
  (forall h, healthCheckTimer w = Some h ->
     In h (live HealthCheckCb w) /\
     step cfg (EvTick h) w = Some (verifyRegistration_begin w)).
Proof.
  intros Hrun.
  destruct (sound_run cfg es initial w sound_initial Hrun)
    as [[N B] (Lh & Lr & Lc)].
  assert (L : forall h k, In (h, k) (intervals w) ->
                In h (live k w) /\ step cfg (EvTick h) w = Some (fire k w)).
  { intros h k Hin. split.
    - unfold live, handles_of. apply in_map_iff. exists (h, k).
      split; [reflexivity|]. apply filter_In. split; [exact Hin|].
      now destruct k.
    - cbn. now rewrite (kind_of_in _ _ _ N Hin). }
  split; [|split]; intros h E.
  - now apply (L h HeartbeatCb), Lh.
  - now apply (L h RetryCb), Lr.
  - now apply (L h HealthCheckCb), Lc.
Qed.

Lemma timer_fields_name_live_timers_witness :
  exists w,
    run example_config
      [EvInit; EvSettle 0 (Http 200 None); EvTick 0; EvSettle 0 (Http 404 None);
       EvSettle 0 Threw]
      initial = Some w /\
    retryTimer w = Some 2 /\
    In 2 (live RetryCb w).
Proof.
  eexists. split; [vm_compute; reflexivity|].
  split; [vm_compute; reflexivity|].
  refine (proj1 (proj1 (proj2
           (timer_fields_name_live_timers example_config
              [EvInit; EvSettle 0 (Http 200 None); EvTick 0;
               EvSettle 0 (Http 404 None); EvSettle 0 Threw] _ _)) 2 _)).
  - vm_compute. reflexivity.
  - vm_compute. reflexivity.
Defined.

(** ** An unregistered agent keeps trying *)

Lemma in_remove_nth {A} (l : list A) : forall i x,
  In x (firstn i l ++ skipn (S i) l) -> In x l.
Proof.
  induction l as [|a l IH]; intros [|i] x; cbn; auto.
  intros [->|Hin]; [now left|right; eauto].
Qed.

Lemma in_remove_other {A} (l : list A) : forall i x y,
  In x l -> nth_error l i = Some y -> x <> y ->
  In x (firstn i l ++ skipn (S i) l).
Proof.
  induction l as [|a l IH]; intros [|i] x y Hin E Hne; cbn in *;
    try discriminate; try contradiction.
  - inversion E; subst. destruct Hin as [->|Hin]; [congruence|exact Hin].
  - destruct Hin as [->|Hin]; [now left|]. right. eapply IH; eauto.
Qed.

Lemma keeps_trying_same_progress w w' :
  same_progress w w' -> keeps_trying w -> keeps_trying w'.
Proof.
  intros (Er & Ei & Et & Ep) (A & R & D).
  unfold keeps_trying, retry_armed, recoverable, register_outstanding.
  rewrite Er, Ei, Et, Ep. auto.
Qed.

Lemma keeps_trying_after_attemptRegistration c w :
  keeps_trying w -> keeps_trying (after_attemptRegistration c w).
Proof.
  apply keeps_trying_same_progress. destruct c; repeat split.
Qed.

Lemma keeps_trying_fetch_register q c w :
  retry_armed w -> ~ In PDeregister (pending w) ->
  keeps_trying (fetch q (PRegister c) w).
Proof.
  intros A D. repeat split.
  - exact A.
  - intros _. left. exists c. cbn. apply in_or_app. right. now left.
  - cbn. intros Hin. apply in_app_or in Hin.
    destruct Hin as [Hin|[E|[]]]; [auto|discriminate].
Qed.

Lemma keeps_trying_fetch_other q p w :
  keeps_trying w -> p <> PDeregister -> keeps_trying (fetch q p w).
Proof.
  intros (A & R & D) Hp. repeat split.
  - exact A.
  - intros U. destruct (R U) as [[c Hin]|I]; [left|now right].
    exists c. cbn. apply in_or_app. now left.
  - cbn. intros Hin. apply in_app_or in Hin.
    destruct Hin as [Hin|[E|[]]]; [auto|congruence].
Qed.

Lemma keeps_trying_attemptRegistration_begin c w :
  keeps_trying w -> keeps_trying (attemptRegistration_begin c w).
Proof.
  intros K. unfold attemptRegistration_begin. destruct (registered w).
  - now apply keeps_trying_after_attemptRegistration.
  - destruct K as (A & _ & D). now apply keeps_trying_fetch_register.
Qed.

Lemma keeps_trying_attemptRegistration_resume c r w :
  retry_armed w -> ~ In PDeregister (pending w) ->
  keeps_trying (attemptRegistration_resume c r w).
Proof.
  intros A D. unfold attemptRegistration_resume. cbv zeta.
  apply keeps_trying_after_attemptRegistration.
  destruct (register_returns r).
  - destruct w as [r0 i n a [b|] c0 l nx p f]; repeat split;
      try discriminate; exact D.
  - destruct w as [r0 [|] n a b c0 l nx p f]; cbn in *.
    + repeat split; [exact A|now right|exact D].
    + repeat split; [intros _; eexists; reflexivity|now right|exact D].
Qed.

Lemma keeps_trying_forceReRegister w :
  ~ In PDeregister (pending w) -> keeps_trying (forceReRegister w).
Proof.
  intros D. unfold forceReRegister. cbv zeta.
  match goal with
  | |- keeps_trying (attemptRegistration_begin _ ?v) =>
      assert (E : attemptRegistration_begin ByForce v =
                  fetch POST_register (PRegister ByForce) v)
        by (destruct w as [r0 i n [a|] b c0 l nx p f]; reflexivity);
      rewrite E; apply keeps_trying_fetch_register
  end.
  - destruct w as [r0 i n [a|] b c0 l nx p f]; intros I; discriminate I.
  - destruct w as [r0 i n [a|] b c0 l nx p f]; exact D.
Qed.

Lemma keeps_trying_set_consecutiveFailures n w :
  keeps_trying w -> keeps_trying (set_consecutiveFailures n w).
Proof. apply keeps_trying_same_progress. repeat split. Qed.

Lemma keeps_trying_handleHeartbeatFailure w :
  keeps_trying w -> keeps_trying (handleHeartbeatFailure w).
Proof.
  intros K. unfold handleHeartbeatFailure. cbv zeta.
  destruct (Nat.leb _ _).
  - apply keeps_trying_forceReRegister. apply K.
  - now apply keeps_trying_set_consecutiveFailures.
Qed.

Lemma keeps_trying_settle cfg i p r w :
  keeps_trying w ->
  nth_error (pending w) i = Some p ->
  keeps_trying (resume cfg p r (drop_pending i w)).
Proof.
  intros (A & R & D) E.
  assert (A' : retry_armed (drop_pending i w)) by exact A.
  assert (D' : ~ In PDeregister (pending (drop_pending i w))).
  { intros Hin. apply D. eapply in_remove_nth. exact Hin. }
  assert (K' : is_register p = false -> keeps_trying (drop_pending i w)).
  { intros Hp. repeat split; [exact A| |exact D'].
    intros U. destruct (R U) as [[c Hin]|I]; [left|now right].
    exists c. cbn. eapply in_remove_other; eauto.
    intros <-. discriminate Hp. }
  destruct p; cbn.
  - now apply keeps_trying_attemptRegistration_resume.
  - specialize (K' eq_refl).
    unfold sendHeartbeat_resume. destruct r as [|st b].
    + now apply keeps_trying_handleHeartbeatFailure.
    + destruct (ok st); [now apply keeps_trying_set_consecutiveFailures|].
      destruct (st =? 404)%Z;
        [now apply keeps_trying_forceReRegister
        |now apply keeps_trying_handleHeartbeatFailure].
  - specialize (K' eq_refl).
    unfold verifyRegistration_resume. destruct r as [|st b]; [exact K'|].
    destruct (negb (ok st)); [exact K'|].
    destruct b as [data|]; [|exact K'].
    destruct (some_instance _ _) as [[|]|]; cbn; auto.
    now apply keeps_trying_forceReRegister.
  - exfalso. apply D. eapply nth_error_In. exact E.
Qed.

Lemma keeps_trying_fire k w : keeps_trying w -> keeps_trying (fire k w).
Proof.
  intros K. destruct k; cbn.
  - unfold sendHeartbeat_begin. destruct (negb (registered w)).
    + now apply keeps_trying_attemptRegistration_begin.
    + apply keeps_trying_fetch_other; [exact K|discriminate].
  - unfold retryTick. destruct (negb (registered w)).
    + now apply keeps_trying_attemptRegistration_begin.
    + exact K.
  - unfold verifyRegistration_begin. destruct (negb (registered w)).
    + exact K.
    + apply keeps_trying_fetch_other; [exact K|discriminate].
Qed.

Lemma keeps_trying_step cfg e w w' :
  enabled cfg = true ->
  is_destroy e = false ->
  (e = EvInit \/ keeps_trying w) ->
  retry_armed w -> ~ In PDeregister (pending w) ->
  step cfg e w = Some w' -> keeps_trying w'.
Proof.
  intros En Hd K A D. destruct e as [| |h|i r]; cbn; try discriminate Hd.
  - intros [= <-]. unfold onModuleInit. rewrite En. cbn.
    unfold attemptRegistration_begin. destruct (registered w) eqn:R.
    + apply (keeps_trying_after_attemptRegistration ByInit).
      repeat split; [exact A| |exact D]. intros U. congruence.
    + now apply keeps_trying_fetch_register.
  - destruct K as [?|K]; [discriminate|].
    destruct (kind_of h (intervals w)) as [k|]; [|discriminate].
    intros [= <-]. now apply keeps_trying_fire.
  - destruct K as [?|K]; [discriminate|].
    destruct (nth_error (pending w) i) as [p|] eqn:E; [|discriminate].
    intros [= <-]. now apply keeps_trying_settle.
Qed.

Lemma keeps_trying_run cfg es : forall w w',
  enabled cfg = true ->
  forallb (fun e => negb (is_destroy e)) es = true ->
  keeps_trying w ->
  run cfg es w = Some w' -> keeps_trying w'.
Proof.
  induction es as [|e es IH]; cbn; intros w w' En Hd K.
  - now intros [= <-].
  - apply andb_true_iff in Hd. destruct Hd as [He Hes].
    apply negb_true_iff in He.
    destruct (step cfg e w) as [w1|] eqn:E; [|discriminate].
    apply IH; auto.
    eapply keeps_trying_step; eauto; apply K.
Qed.

(** Once an enabled service has been started, and until it is shut down, it
    is never unregistered with nothing left to bring it back: either a
    register call is still outstanding, or the retry timer is set and live,
    and its next tick sends a register request. *)
Theorem unregistered_service_keeps_trying cfg es w :
  enabled cfg = true ->
  forallb (fun e => negb (is_destroy e)) es = true ->
  run cfg (EvInit :: es) initial = Some w ->
  registered w = false ->
  register_outstanding w \/
  exists h w',
    retryTimer w = Some h /\
    step cfg (EvTick h) w = Some w' /\
    fetched w' = fetched w ++ [POST_register].
Proof.
  intros En Hd Hrun U.
  assert (S : sound w) by (eapply sound_run; [exact sound_initial|exact Hrun]).
  cbn [run] in Hrun.
  destruct (step cfg EvInit initial) as [w1|] eqn:E1; [|discriminate].
  assert (K1 : keeps_trying w1).
  { apply (keeps_trying_step cfg EvInit initial w1 En eq_refl);
      [now left|discriminate|intros []|exact E1]. }
  destruct (keeps_trying_run cfg es w1 w En Hd K1 Hrun) as (A & R & _).
  destruct (R U) as [O|I]; [now left|right].
  destruct (A I) as [h Eh]. exists h, (retryTick w).
  destruct S as [[N _] (_ & Lr & _)].
  repeat split; [exact Eh| |].
  - cbn. now rewrite (kind_of_in _ _ _ N (Lr h Eh)).
  - unfold retryTick, attemptRegistration_begin. now rewrite U.
Qed.

Lemma unregistered_service_keeps_trying_witness :
  exists w,
    run example_config
      [EvInit; EvSettle 0 (Http 200 None); EvTick 0; EvSettle 0 (Http 404 None);
       EvSettle 0 Threw]
      initial = Some w /\
    (register_outstanding w \/
     exists h w',
       retryTimer w = Some h /\
       step example_config (EvTick h) w = Some w' /\
       fetched w' = fetched w ++ [POST_register]).
Proof.
  eexists. split; [vm_compute; reflexivity|].
  apply (unregistered_service_keeps_trying example_config
           [EvSettle 0 (Http 200 None); EvTick 0; EvSettle 0 (Http 404 None);
            EvSettle 0 Threw]);
    vm_compute; reflexivity.
Defined.

(** ** A register call that outlives shutdown *)

Lemma attempt_succeeds_fields c r w :
  register_returns r = true ->
  registered (attemptRegistration_resume c r w) = true /\
  isRetrying (attemptRegistration_resume c r w) = false /\
  retryTimer (attemptRegistration_resume c r w) = None /\
  heartbeatTimer (attemptRegistration_resume c r w) = Some (nextHandle w) /\
  In (nextHandle w) (live HeartbeatCb (attemptRegistration_resume c r w)).
Proof.
  intros F. rewrite attempt_succeeds by exact F. unfold live.
  destruct w as [r0 i n a [b|] c0 l nx p f], c; cbn -[handles_of filter];
    repeat split;
    rewrite ?handles_of_app; cbn;
    repeat (apply in_or_app; first [right; left; reflexivity | left]).
Qed.

Lemma pending_onModuleDestroy_begin w i p :
  nth_error (pending w) i = Some p ->
  nth_error (pending (onModuleDestroy_begin w)) i = Some p.
Proof.
  intros E. unfold onModuleDestroy_begin. cbv zeta.
  destruct (stopTimers_fields w) as (_ & _ & _ & _ & Hp & _).
  destruct (registered (stopTimers w)); cbn; rewrite Hp; [|exact E].
  rewrite nth_error_app1; [exact E|].
  apply nth_error_Some. congruence.
Qed.

(** [onModuleDestroy] does not cancel a register call that is under way.
    When that call succeeds after shutdown has begun, the service marks
    itself registered again and arms a new heartbeat timer, which is live
    from then on. *)
Theorem register_answered_after_shutdown_rearms cfg w i c r :
  nth_error (pending w) i = Some (PRegister c) ->
  register_returns r = true ->
  exists w',
    run cfg [EvDestroy; EvSettle i r] w = Some w' /\
    registered w' = true /\
    exists h, heartbeatTimer w' = Some h /\ In h (live HeartbeatCb w').
Proof.
  intros E F. cbn.
  rewrite (pending_onModuleDestroy_begin w i _ E).
  eexists. split; [reflexivity|]. cbn [resume].
  destruct (attempt_succeeds_fields c r
              (drop_pending i (onModuleDestroy_begin w)) F)
    as (R & _ & _ & H & L).
  split; [exact R|]. eexists. split; [exact H|exact L].
Qed.

Lemma register_answered_after_shutdown_rearms_witness :
  exists w',
    run example_config [EvDestroy; EvSettle 0 (Http 200 None)]
      (fetch POST_register (PRegister ByForce) initial) = Some w' /\
    registered w' = true /\
    exists h, heartbeatTimer w' = Some h /\ In h (live HeartbeatCb w').
Proof.
  exact (register_answered_after_shutdown_rearms example_config
           (fetch POST_register (PRegister ByForce) initial) 0 ByForce
           (Http 200 None) eq_refl eq_refl).
Defined.

(** ** Turns that do not overlap *)

Lemma forceReRegister_unregister w :
  forceReRegister w = fetch POST_register (PRegister ByForce) (unregister w).
Proof. destruct w as [r0 i n [a|] b c l nx p f]; reflexivity. Qed.

Lemma and_settle_fetch_from cfg op r w q p w0 :
  op w = fetch q p w0 ->
  pending w0 = pending w ->
  and_settle cfg op r w = resume cfg p r (sent q w0).
Proof.
  intros E Ep. unfold and_settle. rewrite E. cbn. rewrite <- Ep.
  rewrite nth_error_snoc. f_equal.
  unfold drop_pending, sent. cbn -[firstn skipn]. now rewrite remove_snoc.
Qed.

Lemma tracked_same_timers w w' : same_timers w w' -> tracked w -> tracked w'.
Proof.
  intros (Ei & _ & Eh & Er & Ec) T h k. rewrite Ei, Eh, Er, Ec. apply T.
Qed.

(** Arming a timer of a kind whose field is empty. *)
Lemma tracked_arm w k :
  tracked w ->
  match k with
  | HeartbeatCb => heartbeatTimer w
  | RetryCb => retryTimer w
  | HealthCheckCb => healthCheckTimer w
  end = None ->
  tracked (let (h, w1) := setInterval k w in
           match k with
           | HeartbeatCb => set_heartbeatTimer (Some h) w1
           | RetryCb => set_retryTimer (Some h) w1
           | HealthCheckCb => set_healthCheckTimer (Some h) w1
           end).
Proof.
  intros T E h k'.
  destruct w as [r0 i n a b c l nx p f]; cbn in *.
  destruct k; cbn; intros Hin; apply in_app_or in Hin;
    destruct Hin as [Hin|[[= <- <-]|[]]]; try reflexivity;
    specialize (T h k' Hin); destruct k'; cbn in *; congruence.
Qed.

Lemma tracked_clear w k h :
  tracked w ->
  tracked (match k with
           | HeartbeatCb => set_heartbeatTimer None (clearInterval h w)
           | RetryCb => set_retryTimer None (clearInterval h w)
           | HealthCheckCb => set_healthCheckTimer None (clearInterval h w)
           end) \/
  match k with
  | HeartbeatCb => heartbeatTimer w
  | RetryCb => retryTimer w
  | HealthCheckCb => healthCheckTimer w
  end <> Some h.
Proof.
  intros T.
  destruct w as [r0 i n a b c l nx p f]; cbn in *.
  destruct k; cbn;
    match goal with
    | |- _ \/ ?o <> Some h =>
        destruct o as [h0|] eqn:E;
          [destruct (Nat.eq_dec h0 h) as [->|Hne];
             [left|right; congruence]
          |right; discriminate]
    end;
    intros h' k' Hin; apply filter_In in Hin; destruct Hin as [Hin Hf];
    cbn in Hf; apply negb_true_iff, Nat.eqb_neq in Hf;
    specialize (T h' k' Hin); destruct k'; cbn in *; congruence.
Qed.

Lemma orderly_same w w' :
  same_timers w w' ->
  registered w' = registered w -> isRetrying w' = isRetrying w ->
  orderly w -> orderly w'.
Proof.
  intros ST Er Ei (T & K & M & X).
  pose proof (tracked_same_timers w w' ST T) as T'.
  destruct ST as (_ & _ & Eh & Ert & _).
  unfold orderly, exclusive. rewrite Er, Ei, Eh, Ert. auto.
Qed.

Lemma orderly_unregister w :
  registered w = true -> orderly w ->
  orderly (unregister w) /\ registered (unregister w) = false /\
  pending (unregister w) = pending w.
Proof.
  intros R (T & K & M & X).
  assert (I : isRetrying w = false).
  { unfold exclusive in X. rewrite R in X. exact X. }
  specialize (M I).
  assert (T' : tracked (unregister w)).
  { unfold unregister. cbv zeta.
    set (v := set_isRetrying false
                (set_consecutiveFailures 0 (set_registered false w))).
    assert (Tv : tracked v) by
      (apply (tracked_same_timers w v); [repeat split|exact T]).
    destruct (heartbeatTimer v) as [h|] eqn:E; [|exact Tv].
    destruct (tracked_clear v HeartbeatCb h Tv) as [Tc|Hne];
      [exact Tc|congruence]. }
  destruct w as [r0 i n [a|] b c l nx p f]; cbn in *; subst;
    repeat split; auto.
Qed.

Lemma orderly_attemptRegistration_resume c r w :
  c <> ByInit ->
  registered w = false -> orderly w ->
  orderly (attemptRegistration_resume c r w) /\
  pending (attemptRegistration_resume c r w) = pending w.
Proof.
  intros Hc R (T & K & M & X). specialize (K R).
  assert (A : after_attemptRegistration c = fun v => v)
    by (destruct c; try reflexivity; congruence).
  unfold attemptRegistration_resume. cbv zeta. rewrite A.
  destruct (register_returns r).
  - set (v := set_isRetrying false (set_registered true w)).
    assert (Tv : tracked v) by
      (apply (tracked_same_timers w v); [repeat split|exact T]).
    set (v' := match retryTimer v with
               | Some h => set_retryTimer None (clearInterval h v)
               | None => v
               end).
    assert (Tv' : tracked v').
    { unfold v'. destruct (retryTimer v) as [h|] eqn:E; [|exact Tv].
      destruct (tracked_clear v RetryCb h Tv) as [Tc|Hne];
        [exact Tc|congruence]. }
    assert (Hv' : heartbeatTimer v' = None)
      by (destruct w as [r0 i n a [b|] c0 l nx p f]; exact K).
    pose proof (tracked_arm v' HeartbeatCb Tv' Hv') as Ts.
    split; [split; [exact Ts|]|];
      destruct w as [r0 i n a [b|] c0 l nx p f]; cbn; repeat split;
        discriminate.
  - destruct (isRetrying w) eqn:I.
    + assert (E : negb (isRetrying (set_registered false w)) = false)
        by (cbn; now rewrite I).
      rewrite E. split; [|reflexivity].
      apply (orderly_same w); try reflexivity; [repeat split| |].
      * cbn. now rewrite R.
      * repeat split; try assumption; intros; congruence.
    + assert (E : negb (isRetrying (set_registered false w)) = true)
        by (cbn; now rewrite I).
      rewrite E. specialize (M eq_refl).
      set (v := set_isRetrying true (set_registered false w)).
      assert (Tv : tracked v) by
        (apply (tracked_same_timers w v); [repeat split|exact T]).
      pose proof (tracked_arm v RetryCb Tv M) as Ts.
      split; [split; [exact Ts|]|];
        destruct w as [r0 i n a b c0 l nx p f]; cbn in *; repeat split;
          try discriminate; auto.
Qed.

Lemma orderly_forced cfg op r w v :
  op w = forceReRegister v ->
  pending v = pending w ->
  registered v = true -> orderly v ->
  orderly (and_settle cfg op r w) /\
  pending (and_settle cfg op r w) = pending w.
Proof.
  intros E Ep R O.
  destruct (orderly_unregister v R O) as (Ou & Ru & Pu).
  rewrite forceReRegister_unregister in E.
  rewrite (and_settle_fetch_from cfg op r w _ _ _ E) by congruence.
  cbn [resume].
  destruct (orderly_attemptRegistration_resume ByForce r
              (sent POST_register (unregister v))) as [O' P'];
    [discriminate|exact Ru| |].
  - apply (orderly_same (unregister v)); try reflexivity; [repeat split|exact Ou].
  - split; [exact O'|]. rewrite P'. cbn. congruence.
Qed.

Lemma orderly_kept cfg op r w :
  pending (op w) = pending w -> orderly (op w) ->
  orderly (and_settle cfg op r w) /\
  pending (and_settle cfg op r w) = pending w.
Proof.
  intros Ep O. rewrite and_settle_idle by exact Ep. split; assumption.
Qed.

Lemma orderly_sent q w : orderly w -> orderly (sent q w).
Proof. apply orderly_same; try reflexivity. repeat split. Qed.

Lemma orderly_set_consecutiveFailures n w :
  orderly w -> orderly (set_consecutiveFailures n w).
Proof. apply orderly_same; try reflexivity. repeat split. Qed.

(** A tick whose calls are answered at once keeps the timers in order. *)
Lemma orderly_tick cfg k r1 r2 w :
  orderly w ->
  orderly (and_settle cfg (and_settle cfg (fire k) r1) r2 w) /\
  pending (and_settle cfg (and_settle cfg (fire k) r1) r2 w) = pending w.
Proof.
  intros O. destruct (registered w) eqn:R.
  - (* registered *)
    destruct k.
    + (* heartbeat *)
      assert (E1 : and_settle cfg (fire HeartbeatCb) r1 w =
                   sendHeartbeat_resume r1 (sent POST_heartbeat w))
        by (now apply heartbeat_tick_registered).
      assert (Os : orderly (sent POST_heartbeat w)) by now apply orderly_sent.
      assert (Force : forall v, pending v = pending w -> registered v = true ->
                orderly v ->
                and_settle cfg (fire HeartbeatCb) r1 w = forceReRegister v ->
                orderly (and_settle cfg (and_settle cfg (fire HeartbeatCb) r1) r2 w) /\
                pending (and_settle cfg (and_settle cfg (fire HeartbeatCb) r1) r2 w)
                = pending w).
      { intros v Pv Rv Ov Ev.
        now apply (orderly_forced cfg _ r2 w v). }
      assert (Keep : forall v, pending v = pending w -> orderly v ->
                and_settle cfg (fire HeartbeatCb) r1 w = v ->
                orderly (and_settle cfg (and_settle cfg (fire HeartbeatCb) r1) r2 w) /\
                pending (and_settle cfg (and_settle cfg (fire HeartbeatCb) r1) r2 w)
                = pending w).
      { intros v Pv Ov Ev. apply orderly_kept; rewrite Ev; assumption. }
      assert (Fail : sendHeartbeat_resume r1 (sent POST_heartbeat w) =
                     handleHeartbeatFailure (sent POST_heartbeat w) ->
                orderly (and_settle cfg (and_settle cfg (fire HeartbeatCb) r1) r2 w) /\
                pending (and_settle cfg (and_settle cfg (fire HeartbeatCb) r1) r2 w)
                = pending w).
      { intros Ef. rewrite Ef in E1. unfold handleHeartbeatFailure in E1.
        cbv zeta in E1.
        destruct (Nat.leb _ _).
        - eapply Force; [| | |exact E1]; try reflexivity; [exact R|].
          now apply orderly_set_consecutiveFailures.
        - eapply Keep; [| |exact E1]; [reflexivity|].
          now apply orderly_set_consecutiveFailures. }
      destruct r1 as [|st body]; [now apply Fail|].
      cbn in E1. destruct (ok st) eqn:Hok.
      * eapply Keep; [| |exact E1]; [reflexivity|].
        now apply orderly_set_consecutiveFailures.
      * destruct (st =? 404)%Z eqn:H404.
        -- eapply Force; [| | |exact E1]; try reflexivity; [exact R|exact Os].
        -- apply Fail. cbn. now rewrite Hok, H404.
    + (* retry tick on a registered service *)
      assert (E1 : fire RetryCb w = w) by now apply retry_tick_registered.
      assert (E2 : and_settle cfg (fire RetryCb) r1 w = w)
        by (rewrite and_settle_idle; rewrite E1; reflexivity).
      apply orderly_kept; rewrite E2; auto.
    + (* health check *)
      assert (E1 : and_settle cfg (fire HealthCheckCb) r1 w =
                   verifyRegistration_resume cfg r1 (sent GET_registry w))
        by (now apply health_check_registered).
      assert (Os : orderly (sent GET_registry w)) by now apply orderly_sent.
      unfold verifyRegistration_resume in E1.
      destruct r1 as [|st body];
        [apply orderly_kept; rewrite E1; auto|].
      destruct (negb (ok st)); [apply orderly_kept; rewrite E1; auto|].
      destruct body as [data|]; [|apply orderly_kept; rewrite E1; auto].
      destruct (some_instance _ _) as [[|]|]; cbn in E1;
        try (apply orderly_kept; rewrite E1; auto; fail).
      now apply (orderly_forced cfg _ r2 w (sent GET_registry w)).
  - (* unregistered *)
    assert (Att : forall c, c <> ByInit ->
              fire k w = fetch POST_register (PRegister c) w ->
              orderly (and_settle cfg (and_settle cfg (fire k) r1) r2 w) /\
              pending (and_settle cfg (and_settle cfg (fire k) r1) r2 w)
              = pending w).
    { intros c Hc Ef.
      assert (E1 : and_settle cfg (fire k) r1 w =
                   attemptRegistration_resume c r1 (sent POST_register w))
        by (now apply (and_settle_fetch cfg (fire k) r1 w POST_register
                         (PRegister c))).
      destruct (orderly_attemptRegistration_resume c r1
                  (sent POST_register w) Hc R (orderly_sent _ _ O))
        as [O1 P1].
      apply orderly_kept; rewrite E1; auto. }
    destruct k.
    + apply (Att ByHeartbeat); [discriminate|].
      cbn. unfold sendHeartbeat_begin, attemptRegistration_begin.
      now rewrite R.
    + apply (Att ByRetryTick); [discriminate|].
      cbn. unfold retryTick, attemptRegistration_begin. now rewrite R.
    + assert (E1 : fire HealthCheckCb w = w)
        by (cbn; unfold verifyRegistration_begin; now rewrite R).
      assert (E2 : and_settle cfg (fire HealthCheckCb) r1 w = w)
        by (rewrite and_settle_idle; rewrite E1; reflexivity).
      apply orderly_kept; rewrite E2; auto.
Qed.

Lemma destroy_settled cfg r w :
  let w' := and_settle cfg onModuleDestroy_begin r w in
  heartbeatTimer w' = None /\ retryTimer w' = None /\
  healthCheckTimer w' = None /\
  intervals w' = intervals (stopTimers w) /\
  pending w' = pending w /\
  isRetrying w' = isRetrying w /\
  (registered w' = registered w \/ registered w' = false).
Proof.
  destruct (stopTimers_fields w) as (Hh & Hr & Hc & Hreg & Hp & Hf).
  assert (Hi : isRetrying (stopTimers w) = isRetrying w)
    by (destruct w as [r0 i n [a|] [b|] [c|] l nx p f]; reflexivity).
  destruct (registered w) eqn:R; cbv zeta.
  - rewrite (and_settle_fetch_from cfg onModuleDestroy_begin r w
               DELETE_instance PDeregister (stopTimers w));
      [|unfold onModuleDestroy_begin; now rewrite Hreg, ?R|exact Hp].
    destruct r; cbn; rewrite ?Hreg, ?R; auto 10.
  - rewrite and_settle_idle;
      unfold onModuleDestroy_begin; rewrite Hreg, ?R; auto 10.
Qed.

Lemma orderly_destroy cfg r w :
  orderly w ->
  orderly (and_settle cfg onModuleDestroy_begin r w) /\
  pending (and_settle cfg onModuleDestroy_begin r w) = pending w.
Proof.
  intros (T & K & M & X).
  destruct (destroy_settled cfg r w) as (Hh & Hr & Hc & Hi & Hp & Hy & Hreg).
  split; [|exact Hp]. repeat split.
  - intros h k Hin. rewrite Hi, (stopTimers_tracked w T) in Hin.
    destruct Hin.
  - intros _. exact Hh.
  - intros _. exact Hr.
  - unfold exclusive in *. rewrite Hy.
    destruct Hreg as [-> | ->]; [exact X|reflexivity].
Qed.

Lemma sound_and_settle cfg op r w :
  sound (op w) -> sound (and_settle cfg op r w).
Proof.
  intros S. unfold and_settle. cbv zeta.
  destruct (nth_error _ _); [|exact S].
  now apply sound_resume, sound_drop_pending.
Qed.

Lemma orderly_turn cfg t w w' :
  sound w -> orderly w -> pending w = [] ->
  turn cfg t w = Some w' ->
  sound w' /\ orderly w' /\ pending w' = [].
Proof.
  intros S O P. destruct t as [h r1 r2|r]; cbn.
  - destruct (kind_of h (intervals w)) as [k|]; [|discriminate].
    intros [= <-].
    destruct (orderly_tick cfg k r1 r2 w O) as [O' P'].
    split; [|split; [exact O'|congruence]].
    apply sound_and_settle, sound_and_settle, sound_fire, S.
  - intros [= <-].
    destruct (orderly_destroy cfg r w O) as [O' P'].
    split; [|split; [exact O'|congruence]].
    apply sound_and_settle. unfold onModuleDestroy_begin. cbv zeta.
    pose proof (sound_stopTimers w S) as Ss.
    destruct (registered (stopTimers w)); [now apply sound_fetch|exact Ss].
Qed.

Lemma orderly_start cfg r :
  let w := and_settle cfg (onModuleInit cfg) r initial in
  sound w /\ orderly w /\ pending w = [].
Proof.
  cbv zeta.
  assert (S : sound (and_settle cfg (onModuleInit cfg) r initial)).
  { apply sound_and_settle. unfold onModuleInit.
    destruct (negb (enabled cfg));
      [|apply sound_attemptRegistration_begin]; exact sound_initial. }
  split; [exact S|].
  destruct (enabled cfg) eqn:En.
  - assert (E : and_settle cfg (onModuleInit cfg) r initial =
                attemptRegistration_resume ByInit r (sent POST_register initial)).
    { apply (and_settle_fetch cfg (onModuleInit cfg) r initial POST_register
               (PRegister ByInit)).
      unfold onModuleInit. now rewrite En. }
    rewrite E. unfold attemptRegistration_resume.
    destruct (register_returns r); cbn; (split; [|reflexivity]);
      repeat split; try discriminate;
      intros h k [[= <- <-]|[[= <- <-]|[]]]; reflexivity.
  - assert (E : and_settle cfg (onModuleInit cfg) r initial = initial)
      by (unfold and_settle, onModuleInit; rewrite En; reflexivity).
    rewrite E. split; [|reflexivity].
    repeat split; try discriminate. intros h k [].
Qed.

Lemma at_most_one_live k w :
  tracked w -> NoDup (map fst (intervals w)) -> List.length (live k w) <= 1.
Proof.
  intros T N.
  assert (N' : NoDup (live k w)) by (now apply NoDup_map_filter).
  assert (Eq : forall h h', In h (live k w) -> In h' (live k w) -> h = h').
  { assert (F : forall h, In h (live k w) ->
                  match k with
                  | HeartbeatCb => heartbeatTimer w
                  | RetryCb => retryTimer w
                  | HealthCheckCb => healthCheckTimer w
                  end = Some h).
    { intros h Hin. unfold live, handles_of in Hin.
      apply in_map_iff in Hin. destruct Hin as ([h0 k0] & E & Hin).
      cbn in E. subst h0. apply filter_In in Hin. destruct Hin as [Hin Hk].
      cbn in Hk. specialize (T h k0 Hin).
      destruct k, k0; try discriminate; exact T. }
    intros h h' Hh Hh'. apply F in Hh, Hh'. congruence. }
  destruct (live k w) as [|x [|y l]]; cbn; try lia.
  exfalso. inversion N' as [|? ? Hnot _]; subst. apply Hnot.
  rewrite (Eq x y); cbn; auto.
Qed.

(** When calls do not overlap -- every call is answered before the next
    timer fires or the service is shut down -- the service started by
    [onModuleInit] never has two live timers of the same kind, every live
    timer is the one remembered in its field, and no call is left
    outstanding. *)
Theorem one_timer_per_kind_without_overlap cfg r0 ts w :
  turns cfg ts (and_settle cfg (onModuleInit cfg) r0 initial) = Some w ->
  pending w = [] /\
  tracked w /\
  forall k, List.length (live k w) <= 1.
Proof.
  assert (G : forall w0, sound w0 -> orderly w0 -> pending w0 = [] ->
                turns cfg ts w0 = Some w ->
                sound w /\ orderly w /\ pending w = []).
  { induction ts as [|t ts IH]; cbn; intros w0 S O P.
    - intros [= <-]. auto.
    - destruct (turn cfg t w0) as [w1|] eqn:E; [|discriminate].
      destruct (orderly_turn cfg t w0 w1 S O P E) as (S1 & O1 & P1).
      now apply IH. }
  intros Hrun.
  destruct (orderly_start cfg r0) as (S0 & O0 & P0).
  destruct (G _ S0 O0 P0 Hrun) as ([[N _] _] & (T & _) & P).
  repeat split; [exact P|exact T|].
  intros k. now apply at_most_one_live.
Qed.

Lemma one_timer_per_kind_without_overlap_witness :
  exists w,
    turns example_config
      [TurnTick 0 (Http 404 None) (Http 200 None);
       TurnTick 1 (Http 200 (Some (Json.Arr []))) Threw;
       TurnTick 3 (Http 201 None) Threw]
      (and_settle example_config (onModuleInit example_config)
         (Http 200 None) initial) = Some w /\
    List.length (live HeartbeatCb w) <= 1.
Proof.
  eexists. split; [vm_compute; reflexivity|].
  refine (proj2 (proj2
            (one_timer_per_kind_without_overlap example_config (Http 200 None)
               [TurnTick 0 (Http 404 None) (Http 200 None);
                TurnTick 1 (Http 200 (Some (Json.Arr []))) Threw;
                TurnTick 3 (Http 201 None) Threw] _ _)) HeartbeatCb).
  vm_compute. reflexivity.
Defined.

(** * The variant without health check *)

Lemma basic_attemptRegistration_resume_same r w :
  Basic.attemptRegistration_resume r w =
  attemptRegistration_resume ByHeartbeat r w.
Proof. reflexivity. Qed.

Lemma basic_exclusive_resume p r w :
  exclusive w -> exclusive (Basic.resume p r w).
Proof.
  intros H. destruct p; cbn.
  - rewrite basic_attemptRegistration_resume_same.
    apply exclusive_attemptRegistration_resume.
  - assert (F : exclusive (Basic.attemptRegistration_begin ByHeartbeat
                             (set_registered false w))).
    { unfold Basic.attemptRegistration_begin. reflexivity. }
    unfold Basic.sendHeartbeat_resume. destruct r as [|st b]; [exact F|].
    destruct (negb (ok st)); [exact F|exact H].
  - exact H.
  - unfold onModuleDestroy_resume. destruct r; [exact H|reflexivity].
Qed.

Lemma basic_exclusive_begin c w :
  exclusive w -> exclusive (Basic.attemptRegistration_begin c w).
Proof.
  intros H. unfold Basic.attemptRegistration_begin.
  destruct (registered w); exact H.
Qed.

Lemma basic_exclusive_step cfg e w w' :
  exclusive w -> Basic.step cfg e w = Some w' -> exclusive w'.
Proof.
  intros H. destruct e as [| |h|i r]; cbn.
  - intros [= <-]. unfold Basic.onModuleInit. destruct (negb (enabled cfg)).
    + exact H.
    + now apply basic_exclusive_begin.
  - intros [= <-]. unfold Basic.onModuleDestroy_begin. cbv zeta.
    assert (Hs : exclusive (Basic.stopTimers w))
      by (destruct w as [r0 i n [a|] [b|] c l nx p f]; exact H).
    destruct (registered (Basic.stopTimers w)); exact Hs.
  - destruct (kind_of h (intervals w)) as [k|]; [|discriminate].
    intros [= <-]. destruct k; cbn.
    + unfold Basic.sendHeartbeat_begin. destruct (negb (registered w));
        [now apply basic_exclusive_begin|exact H].
    + unfold Basic.retryTick. destruct (negb (registered w));
        [now apply basic_exclusive_begin|exact H].
    + exact H.
  - destruct (nth_error (pending w) i) as [p|]; [|discriminate].
    intros [= <-]. now apply basic_exclusive_resume.
Qed.

(** In the variant without health check too, whatever happens and in
    whatever order, [registered] and [isRetrying] are never both true. *)
Theorem basic_registered_and_isRetrying_never_both cfg es w :
  Basic.run cfg es initial = Some w ->
  ~ (registered w = true /\ isRetrying w = true).
Proof.
  assert (G : forall w0, exclusive w0 -> Basic.run cfg es w0 = Some w ->
                exclusive w).
  { induction es as [|e es IH]; cbn; intros w0 H0.
    - now intros [= <-].
    - destruct (Basic.step cfg e w0) as [w1|] eqn:E; [|discriminate].
      apply IH. eapply basic_exclusive_step; eauto. }
  intros Hrun [Hr Hi].
  assert (E : exclusive w) by (apply (G initial); [reflexivity|exact Hrun]).
  unfold exclusive in E. rewrite Hr, Hi in E. discriminate.
Qed.

Lemma basic_registered_and_isRetrying_never_both_witness :
  exists w,
    Basic.run example_config
      [EvInit; EvSettle 0 Threw; EvTick 0; EvSettle 0 (Http 200 None);
       EvTick 1; EvSettle 0 (Http 503 None)]
      initial = Some w /\
    ~ (registered w = true /\ isRetrying w = true).
Proof.
  eexists. split.
  - vm_compute. reflexivity.
  - apply (basic_registered_and_isRetrying_never_both example_config
             [EvInit; EvSettle 0 Threw; EvTick 0; EvSettle 0 (Http 200 None);
              EvTick 1; EvSettle 0 (Http 503 None)]).
    vm_compute. reflexivity.
Defined.

Lemma basic_and_settle_fetch_from op r w q p w0 :
  op w = fetch q p w0 ->
  pending w0 = pending w ->
  Basic.and_settle op r w = Basic.resume p r (sent q w0).
Proof.
  intros E Ep. unfold Basic.and_settle. rewrite E. cbn. rewrite <- Ep.
  rewrite nth_error_snoc. f_equal.
  unfold drop_pending, sent. cbn -[firstn skipn]. now rewrite remove_snoc.
Qed.

Lemma basic_beat_fails_then_registers r1 r2 w :
  registered w = true ->
  register_returns r1 = false ->
  Basic.beat r1 r2 w =
  Basic.attemptRegistration_resume r2
    (sent POST_register (set_registered false (sent POST_heartbeat w))).
Proof.
  intros R F. unfold Basic.beat.
  assert (E1 : Basic.and_settle Basic.sendHeartbeat_begin r1 w =
               fetch POST_register (PRegister ByHeartbeat)
                 (set_registered false (sent POST_heartbeat w))).
  { rewrite (basic_and_settle_fetch_from Basic.sendHeartbeat_begin r1 w
               POST_heartbeat PHeartbeat w);
      [|unfold Basic.sendHeartbeat_begin; now rewrite R|reflexivity].
    cbn [Basic.resume]. unfold Basic.sendHeartbeat_resume.
    destruct r1 as [|st b]; unfold register_returns in F;
      [reflexivity|now rewrite F]. }
  now rewrite (basic_and_settle_fetch_from _ r2 w _ _ _ E1).
Qed.

(** In the variant without health check, a heartbeat that fails (any
    non-2xx status, 404 or not, or a rejected call) makes the service
    re-register at once; when that registration succeeds, [startHeartbeat]
    arms a new heartbeat timer and nothing has cleared the one that fired:
    every timer that was live is still live, and there is one more. *)
Theorem basic_failed_heartbeat_adds_a_timer r1 r2 w :
  registered w = true ->
  retryTimer w = None ->
  register_returns r1 = false ->
  register_returns r2 = true ->
  let w' := Basic.beat r1 r2 w in
  registered w' = true /\
  fetched w' = fetched w ++ [POST_heartbeat; POST_register] /\
  pending w' = pending w /\
  heartbeatTimer w' = Some (nextHandle w) /\
  intervals w' = intervals w ++ [(nextHandle w, HeartbeatCb)] /\
  live HeartbeatCb w' = live HeartbeatCb w ++ [nextHandle w].
Proof.
  intros R T F1 F2. cbv zeta.
  rewrite basic_beat_fails_then_registers by assumption.
  unfold Basic.attemptRegistration_resume. rewrite F2. unfold live.
  destruct w as [r0 i n a b c l nx p f]; cbn -[handles_of] in *. subst b.
  cbn -[handles_of]. rewrite <- app_assoc, handles_of_app. repeat split.
Qed.

Lemma basic_failed_heartbeat_adds_a_timer_witness :
  let w0 := mkWorld true false 0 (Some 0) None None [(0, HeartbeatCb)] 1 []
              [POST_register] in
  let w2 := Basic.beat Threw (Http 200 None)
              (Basic.beat (Http 404 None) (Http 200 None) w0) in
  live HeartbeatCb (Basic.beat (Http 404 None) (Http 200 None) w0) = [0; 1] /\
  live HeartbeatCb w2 = [0; 1; 2].
Proof.
  intros w0 w2.
  pose proof (basic_failed_heartbeat_adds_a_timer (Http 404 None)
                (Http 200 None) w0 eq_refl eq_refl eq_refl eq_refl)
    as (R1 & _ & _ & _ & _ & L1).
  split; [exact L1|].
  pose proof (basic_failed_heartbeat_adds_a_timer Threw (Http 200 None)
                (Basic.beat (Http 404 None) (Http 200 None) w0)
                R1 eq_refl eq_refl eq_refl)
    as (_ & _ & _ & _ & _ & L2).
  rewrite L1 in L2. exact L2.
Defined.

(** * Guards and helpers *)

(** ** [RolesGuard] *)

Lemma roles_hasRole_spec (up : string -> string)
    (required userRoles : list string) :
  existsb (fun r => existsb (String.eqb r) (map up userRoles))
    (map up required) = true <->
  exists r u, In r required /\ In u userRoles /\ up u = up r.
Proof.
  rewrite existsb_exists. split.
  - intros (x & Hx & Hex). apply in_map_iff in Hx.
    destruct Hx as (r & <- & Hr).
    apply existsb_exists in Hex. destruct Hex as (y & Hy & E).
    apply in_map_iff in Hy. destruct Hy as (u & <- & Hu).
    apply String.eqb_eq in E. exists r, u. auto.
  - intros (r & u & Hr & Hu & E). exists (up r). split.
    + apply in_map_iff. eauto.
    + apply existsb_exists. exists (up u). split.
      * apply in_map_iff. eauto.
      * apply String.eqb_eq. congruence.
Qed.

(** [RolesGuard] lets a request through exactly when the route asks for no
    role, or the user holds some role that equals a required one once both
    are upper-cased.  Nothing else is consulted: not the order of the
    roles, not [ROLE_HIERARCHY]. *)
Theorem roles_guard_allows_iff up requiredRoles user :
  Roles.canActivate up requiredRoles user = Roles.Allow <->
  requiredRoles = None \/ requiredRoles = Some [] \/
  exists required userRoles r u,
    requiredRoles = Some required /\
    user = Some (Roles.mkUser (Some userRoles)) /\
    In r required /\ In u userRoles /\ up u = up r.
Proof.
  destruct requiredRoles as [[|r0 required]|]; cbn.
  - split; auto.
  - destruct user as [[[[|u0 userRoles]|]]|]; cbn.
    + split; [discriminate|].
      intros [E|[E|(rq & us & r & u & _ & E & _ & Hu & _)]];
        try discriminate.
      inversion E; subst. destruct Hu.
    + pose proof (roles_hasRole_spec up (r0 :: required) (u0 :: userRoles)) as S.
      cbn [map existsb] in S.
      destruct (_ || _) eqn:H in S |- *; cbn.
      * split; [intros _|reflexivity]. right. right.
        destruct (proj1 S eq_refl) as (r & u & Hr & Hu & E).
        exists (r0 :: required), (u0 :: userRoles), r, u. auto.
      * split; [discriminate|].
        intros [E|[E|(rq & us & r & u & [= <-] & [= <-] & Hr & Hu & E)]];
          try discriminate.
        assert (C : false = true) by (apply S; eauto). discriminate.
    + split; [discriminate|].
      intros [E|[E|(rq & us & r & u & _ & E & _)]]; discriminate.
    + split; [discriminate|].
      intros [E|[E|(rq & us & r & u & _ & E & _)]]; discriminate.
  - split; auto.
Qed.

(** Granting more roles to a user never takes access away. *)
Theorem roles_guard_monotone up requiredRoles userRoles userRoles' :
  incl userRoles userRoles' ->
  Roles.canActivate up requiredRoles (Some (Roles.mkUser (Some userRoles)))
    = Roles.Allow ->
  Roles.canActivate up requiredRoles (Some (Roles.mkUser (Some userRoles')))
    = Roles.Allow.
Proof.
  intros I H.
  destruct requiredRoles as [[|r0 required]|]; try reflexivity.
  destruct userRoles as [|u0 userRoles]; [discriminate|].
  destruct userRoles' as [|u0' userRoles'];
    [exfalso; apply (I u0); now left|].
  cbn in H |- *.
  pose proof (roles_hasRole_spec up (r0 :: required) (u0 :: userRoles)) as S.
  pose proof (roles_hasRole_spec up (r0 :: required) (u0' :: userRoles')) as S'.
  cbn [map existsb] in S, S'.
  destruct (_ || _) eqn:E in H; [|discriminate].
  rewrite E in S.
  destruct (proj1 S eq_refl) as (r & u & Hr & Hu & Eu).
  assert (E' : true = true) by reflexivity.
  rewrite (proj2 S'); [reflexivity|].
  exists r, u. auto.
Qed.

Lemma roles_guard_monotone_witness :
  Roles.canActivate (fun s => s) (Some ["ADMIN"; "OWNER"])
    (Some (Roles.mkUser (Some ["PLAYER"; "OWNER"]))) = Roles.Allow.
Proof.
  apply (roles_guard_monotone (fun s => s) (Some ["ADMIN"; "OWNER"])
           ["OWNER"] ["PLAYER"; "OWNER"]).
  - intros x [<-|[]]. right. now left.
  - reflexivity.
Defined.

(** ** [UserThrottleGuard] *)

Lemma throttle_truthy_spec o s :
  Throttle.truthy o = Some s <-> o = Some s /\ s <> "".
Proof.
  destruct o as [t|]; cbn.
  - destruct (String.eqb_spec t "") as [->|Hne]; split.
    + discriminate.
    + intros [[= <-] H]. congruence.
    + intros [= <-]. auto.
    + intros [[= <-] _]. reflexivity.
  - split; [discriminate|intros [E _]; discriminate].
Qed.

(** Requests are counted per user when the request carries a user id and
    per address otherwise, and the two kinds of key never meet: whatever
    address or [x-forwarded-for] header an anonymous client sends, its key
    differs from the key of every signed-in user; two signed-in requests
    share a key only when they carry the same user id; and the address part
    of an anonymous key is never empty. *)
Theorem throttle_keys_are_separated req :
  (forall id, Throttle.truthy (Throttle.user_id req) = Some id ->
     Throttle.getTracker req = ("user:" ++ id)%string /\
     (forall req', Throttle.truthy (Throttle.user_id req') = None ->
        Throttle.getTracker req' <> Throttle.getTracker req) /\
     (forall req' id', Throttle.truthy (Throttle.user_id req') = Some id' ->
        Throttle.getTracker req' = Throttle.getTracker req -> id' = id)) /\
  (Throttle.truthy (Throttle.user_id req) = None ->
     exists a, Throttle.getTracker req = ("ip:" ++ a)%string /\ a <> "").
Proof.
  split.
  - intros id E. unfold Throttle.getTracker. rewrite E. repeat split.
    + intros req' E'. unfold Throttle.getTracker. rewrite E'. discriminate.
    + intros req' id' E'. unfold Throttle.getTracker. rewrite E'.
      now intros [= ->].
  - intros E. unfold Throttle.getTracker. rewrite E.
    destruct (Throttle.truthy (Throttle.ip req)) as [a|] eqn:Ea.
    + exists a. split; [reflexivity|]. now apply throttle_truthy_spec in Ea.
    + destruct (Throttle.truthy (Throttle.x_forwarded_for req)) as [f|] eqn:Ef.
      * exists f. split; [reflexivity|]. now apply throttle_truthy_spec in Ef.
      * exists "unknown". split; [reflexivity|discriminate].
Qed.

Lemma throttle_keys_are_separated_witness :
  Throttle.getTracker (Throttle.mkReq (Some "42") (Some "10.0.0.7") None)
    = "user:42" /\
  Throttle.getTracker (Throttle.mkReq (Some "") None (Some "user:42"))
    <> "user:42".
Proof.
  destruct (throttle_keys_are_separated
              (Throttle.mkReq (Some "42") (Some "10.0.0.7") None))
    as [H _].
  destruct (H "42" eq_refl) as (E & Hsep & _).
  split; [exact E|].
  exact (Hsep (Throttle.mkReq (Some "") None (Some "user:42")) eq_refl).
Defined.

(** ** Pagination *)

(** [getTake] is never 0 and never above 100, and it is at least 1 unless
    the caller passes a negative limit; a negative limit is not clamped
    and comes back as it is. *)
Theorem pagination_take_range q :
  (Pagination.getTake q <= 100)%Z /\
  Pagination.getTake q <> 0%Z /\
  (forall l, Pagination.limit q = Some l -> (l < 0)%Z ->
     Pagination.getTake q = l) /\
  ((forall l, Pagination.limit q = Some l -> (0 <= l)%Z) ->
     (1 <= Pagination.getTake q)%Z).
Proof.
  unfold Pagination.getTake, Pagination.or_default, Pagination.LIMIT,
    Pagination.MAX_LIMIT.
  destruct (Pagination.limit q) as [l|].
  - destruct (Z.eqb_spec l 0); repeat split; try lia.
    + intros l' [= <-]. lia.
    + intros l' [= <-]. lia.
    + intros H. specialize (H l eq_refl). lia.
  - repeat split; try lia. intros l [=].
Qed.

Lemma pagination_take_range_witness :
  Pagination.getTake (Pagination.mkQuery (Some 3%Z) (Some (-5)%Z)) = (-5)%Z /\
  (1 <= Pagination.getTake (Pagination.mkQuery None (Some 0%Z)))%Z.
Proof.
  split.
  - apply (pagination_take_range (Pagination.mkQuery (Some 3%Z) (Some (-5)%Z)));
      [reflexivity|lia].
  - apply (pagination_take_range (Pagination.mkQuery None (Some 0%Z))).
    intros l [= <-]. lia.
Defined.







(** ** Time zone helpers *)

(** Converting to local time and back gives the date that [new Date] made
    of the input, provided the local time is itself a valid date; the same
    holds the other way round.  Within seven hours of the largest (or
    smallest) time value the shifted date is invalid and nothing comes
    back. *)
Theorem timezone_round_trip parse x :
  Timezone.valid (Timezone.new_Date parse x) ->
  (forall t, Timezone.toLocalTime parse x = Some t ->
     Timezone.toUtcTime parse (Timezone.OfDate (Some t)) =
     Timezone.new_Date parse x) /\
  (forall t, Timezone.toUtcTime parse x = Some t ->
     Timezone.toLocalTime parse (Timezone.OfDate (Some t)) =
     Timezone.new_Date parse x) /\
  (forall t, Timezone.new_Date parse x = Some t ->
     (Timezone.MAX_TIME - 25200000 < t)%Z ->
     Timezone.toLocalTime parse x = None).
Proof.
  unfold Timezone.toLocalTime, Timezone.toUtcTime, Timezone.valid,
    Timezone.of_time, Timezone.TIMEZONE_OFFSET_HOURS, Timezone.MAX_TIME.
  change (7 * 60 * 60 * 1000)%Z with 25200000%Z.
  destruct (Timezone.new_Date parse x) as [t0|].
  - intros V. repeat split.
    + intros t.
      destruct (Z.leb_spec (Z.abs (t0 + 25200000)) 8640000000000000);
        [|discriminate].
      intros [= <-]. cbn [Timezone.new_Date].
      destruct (Z.leb_spec (Z.abs (t0 + 25200000 - 25200000))
                  8640000000000000); [f_equal; lia|lia].
    + intros t.
      destruct (Z.leb_spec (Z.abs (t0 - 25200000)) 8640000000000000);
        [|discriminate].
      intros [= <-]. cbn [Timezone.new_Date].
      destruct (Z.leb_spec (Z.abs (t0 - 25200000 + 25200000))
                  8640000000000000); [f_equal; lia|lia].
    + intros t [= <-] H.
      destruct (Z.leb_spec (Z.abs (t0 + 25200000)) 8640000000000000);
        [lia|reflexivity].
  - intros _. repeat split; intros t; discriminate.
Qed.

Lemma timezone_round_trip_witness :
  Timezone.toUtcTime (fun _ => None)
    (Timezone.OfDate (Some 1700025200000%Z)) = Some 1700000000000%Z.
Proof.
  assert (V : Timezone.valid
                (Timezone.new_Date (fun _ => None)
                   (Timezone.OfDate (Some 1700000000000%Z))))
    by (cbn; unfold Timezone.MAX_TIME; lia).
  exact (proj1 (timezone_round_trip (fun _ => None)
                  (Timezone.OfDate (Some 1700000000000%Z)) V)
           1700025200000%Z eq_refl).
Defined.

(** ** HMAC signatures *)

(** [verifyHmacSignature] accepts a signature exactly when it is the one
    [buildHmacSignature] computes for the same data and secret. *)
Theorem hmac_verify_iff hmac data provided secret :
  Hmac.verifyHmacSignature hmac data provided secret = true <->
  provided = Hmac.buildHmacSignature hmac data secret.
Proof.
  unfold Hmac.verifyHmacSignature. cbv zeta.
  destruct (Nat.eqb_spec (String.length provided)
              (String.length (Hmac.buildHmacSignature hmac data secret)))
    as [E|Hne]; cbn.
  - apply String.eqb_eq.
  - split; [discriminate|]. intros ->. now elim Hne.
Qed.

(** ** The response wrapper *)

(** What the wrapper produces counts as wrapped, so wrapping twice is
    wrapping once: the second pass returns the first result unchanged,
    whatever status and time it is given. *)
Theorem wrap_is_idempotent statusCode now statusCode' now' data :
  Wrap.isAlreadyWrapped (Wrap.wrap statusCode now data) = true /\
  Wrap.wrap statusCode' now' (Wrap.wrap statusCode now data) =
  Wrap.wrap statusCode now data.
Proof.
  assert (W : Wrap.isAlreadyWrapped (Wrap.wrap statusCode now data) = true).
  { unfold Wrap.wrap. destruct (Wrap.isAlreadyWrapped data) eqn:E.
    - exact E.
    - reflexivity. }
  split; [exact W|].
  unfold Wrap.wrap at 1. now rewrite W.
Qed.

(** ** [RepositoryLogger] *)

(** The logger writes at most one line per query and never turns a failure
    into a success or a success into anything else.  A failure is thrown
    again as it is when the logger is disabled or the stack of the error
    can be read; when reading the stack throws ([fn] rejected with [null]
    or [undefined]) an enabled logger writes nothing and rejects with what
    the read threw. *)
Theorem repository_logger_keeps_outcome
    (T E P : Type) (stack : E -> RepoLogger.StackRead E)
    (safeStringify : P -> string)
    s env operation params t0 t1 (result : RepoLogger.Outcome T E) :
  let q := RepoLogger.query T E P stack safeStringify s env operation params
             t0 t1 result in
  List.length (snd q) <= 1 /\
  (forall v, fst q = RepoLogger.Resolved v <-> result = RepoLogger.Resolved v) /\
  (forall e, result = RepoLogger.Rejected e ->
     RepoLogger.enabled s = false \/ (exists trace, stack e = RepoLogger.ReadsAs trace) ->
     fst q = RepoLogger.Rejected e) /\
  (forall e thrown, result = RepoLogger.Rejected e ->
     RepoLogger.enabled s = true -> stack e = RepoLogger.ReadThrows thrown ->
     q = (RepoLogger.Rejected thrown, [])).
Proof.
  unfold RepoLogger.query, RepoLogger.executeWithTiming. cbv zeta.
  destruct (RepoLogger.enabled s) eqn:En; cbn [negb].
  - destruct result as [v|e].
    + split; [|split; [|split]].
      * cbn [snd]. destruct (_ <? _)%Z; [cbn; auto|].
        destruct (_ && _); cbn; auto.
      * intros v'. cbn [fst]. tauto.
      * intros e [=].
      * intros e thrown [=].
    + destruct (stack e) as [trace|thrown] eqn:St; cbn [fst snd].
      * split; [cbn; auto|]. split; [|split].
        -- intros v. split; intros [=].
        -- intros e' [= <-] _. reflexivity.
        -- intros e' thrown [= <-] _ St'. congruence.
      * split; [cbn; auto|]. split; [|split].
        -- intros v. split; intros [=].
        -- intros e' [= <-] [[=]|[trace St']]. congruence.
        -- intros e' thrown' [= <-] _ St'. congruence.
  - cbn [fst snd]. split; [cbn; auto|]. split; [tauto|]. split.
    + intros e -> _. reflexivity.
    + intros e thrown _ [=].
Qed.

Lemma repository_logger_keeps_outcome_witness :
  let stack (e : option string) :=
    match e with
    | Some text => RepoLogger.ReadsAs (Some text)
    | None => RepoLogger.ReadThrows (Some "TypeError")
    end in
  let query := RepoLogger.query nat (option string) string stack (fun p => p)
                 (RepoLogger.create None (RepoLogger.mkOptions None None None))
                 None "findById" None 100 130 in
  fst (query (RepoLogger.Rejected (Some "connection lost")))
    = RepoLogger.Rejected (Some "connection lost") /\
  query (RepoLogger.Rejected None)
    = (RepoLogger.Rejected (Some "TypeError"), []).
Proof.
  intros stack query. split.
  - destruct (repository_logger_keeps_outcome nat (option string) string stack
                (fun p => p)
                (RepoLogger.create None (RepoLogger.mkOptions None None None))
                None "findById" None 100%Z 130%Z
                (RepoLogger.Rejected (Some "connection lost")))
      as (_ & _ & Hsame & _).
    apply (Hsame (Some "connection lost") eq_refl).
    right. exists (Some "connection lost"). reflexivity.
  - destruct (repository_logger_keeps_outcome nat (option string) string stack
                (fun p => p)
                (RepoLogger.create None (RepoLogger.mkOptions None None None))
                None "findById" None 100%Z 130%Z
                (RepoLogger.Rejected None))
      as (_ & _ & _ & Hthrown).
    apply (Hthrown None (Some "TypeError")); reflexivity.
Defined.

(** A logger built without the [enabled] option while [NODE_ENV] is
    [production] is disabled, whatever its other options; and a disabled
    logger times nothing and writes nothing: not the slow queries, not the
    failures. *)
Theorem repository_logger_silent_by_default_in_production
    (T E P : Type) (stack : E -> RepoLogger.StackRead E)
    (safeStringify : P -> string)
    built options env operation params t0 t1
    (result : RepoLogger.Outcome T E) :
  RepoLogger.is_production built = true ->
  RepoLogger.o_enabled options = None ->
  RepoLogger.enabled (RepoLogger.create built options) = false /\
  RepoLogger.query T E P stack safeStringify
    (RepoLogger.create built options)
    env operation params t0 t1 result = (result, []).
Proof.
  intros Hp Ho.
  assert (D : RepoLogger.enabled (RepoLogger.create built options) = false).
  { unfold RepoLogger.create. cbn. rewrite Ho, Hp. reflexivity. }
  split; [exact D|].
  unfold RepoLogger.query. now rewrite D.
Qed.

Lemma repository_logger_silent_by_default_in_production_witness :
  RepoLogger.query nat string string
    (fun e => RepoLogger.ReadsAs (Some e)) (fun p => p)
    (RepoLogger.create (Some "production")
       (RepoLogger.mkOptions None (Some 50%Z) None))
    (Some "production") "findMany" None 0 90000
    (RepoLogger.Rejected "connection lost") =
  (RepoLogger.Rejected "connection lost", []).
Proof.
  apply (repository_logger_silent_by_default_in_production nat string string);
    reflexivity.
Defined.

(** With [logParams] off, what is written does not depend on the query
    parameters. *)
Theorem repository_logger_hides_params
    (T E P : Type) (stack : E -> RepoLogger.StackRead E)
    (safeStringify : P -> string)
    s env operation params params' t0 t1 (result : RepoLogger.Outcome T E) :
  RepoLogger.logParams s = false ->
  RepoLogger.query T E P stack safeStringify s env operation params
    t0 t1 result =
  RepoLogger.query T E P stack safeStringify s env operation params'
    t0 t1 result.
Proof.
  intros L.
  assert (S : forall p, RepoLogger.params_suffix P safeStringify s p = "").
  { intros [p|]; cbn; [now rewrite L|reflexivity]. }
  unfold RepoLogger.query, RepoLogger.executeWithTiming.
  now rewrite (S params), (S params').
Qed.

Lemma repository_logger_hides_params_witness :
  RepoLogger.query nat string string
    (fun e => RepoLogger.ReadsAs (Some e)) (fun p => p)
    (RepoLogger.create None (RepoLogger.mkOptions None None (Some false)))
    None "findById" (Some "{id: 7}") 100 1300 (RepoLogger.Resolved 7) =
  RepoLogger.query nat string string
    (fun e => RepoLogger.ReadsAs (Some e)) (fun p => p)
    (RepoLogger.create None (RepoLogger.mkOptions None None (Some false)))
    None "findById" None 100 1300 (RepoLogger.Resolved 7).
Proof.
  apply (repository_logger_hides_params nat string string). reflexivity.
Defined.

(** An enabled logger reports a failure at error level, with the stack of
    the error, whenever that stack can be read, and writes nothing for a
    failure whose stack cannot be read ([null] or [undefined] thrown); it
    reports every success that took longer than the threshold as a warning,
    in production as elsewhere; a success within the threshold is reported
    (at debug level) only outside production. *)
Theorem repository_logger_reports
    (T E P : Type) (stack : E -> RepoLogger.StackRead E)
    (safeStringify : P -> string)
    s env operation params t0 t1 :
  RepoLogger.enabled s = true ->
  (forall e trace, stack e = RepoLogger.ReadsAs trace ->
     exists m,
       RepoLogger.query T E P stack safeStringify s env operation params
         t0 t1 (RepoLogger.Rejected e) =
       (RepoLogger.Rejected e,
        [RepoLogger.mkEntry RepoLogger.LevelError m trace])) /\
  (forall e thrown, stack e = RepoLogger.ReadThrows thrown ->
     RepoLogger.query T E P stack safeStringify s env operation params
       t0 t1 (RepoLogger.Rejected e) =
     (RepoLogger.Rejected thrown, [])) /\
  (forall v, (RepoLogger.slowQueryThreshold s < t1 - t0)%Z ->
     exists m,
       snd (RepoLogger.query T E P stack safeStringify s env operation params
              t0 t1 (RepoLogger.Resolved v)) =
       [RepoLogger.mkEntry RepoLogger.LevelWarn m None]) /\
  (forall v, (t1 - t0 <= RepoLogger.slowQueryThreshold s)%Z ->
     RepoLogger.is_production env = true ->
     snd (RepoLogger.query T E P stack safeStringify s env operation params
            t0 t1 (RepoLogger.Resolved v)) = []).
Proof.
  intros En. unfold RepoLogger.query, RepoLogger.executeWithTiming.
  rewrite En. cbn [negb]. split; [|split; [|split]].
  - intros e trace St. rewrite St. eexists. reflexivity.
  - intros e thrown St. rewrite St. reflexivity.
  - intros v H. cbn [snd].
    destruct (Z.ltb_spec (RepoLogger.slowQueryThreshold s) (t1 - t0)); [|lia].
    eexists. reflexivity.
  - intros v H Hp. cbn [snd].
    destruct (Z.ltb_spec (RepoLogger.slowQueryThreshold s) (t1 - t0)); [lia|].
    rewrite Hp. reflexivity.
Qed.

Lemma repository_logger_reports_witness :
  let stack (e : option string) :=
    match e with
    | Some text => RepoLogger.ReadsAs (Some text)
    | None => RepoLogger.ReadThrows (Some "TypeError")
    end in
  let query := RepoLogger.query nat (option string) string stack (fun p => p)
                 (RepoLogger.create (Some "production")
                    (RepoLogger.mkOptions (Some true) None None))
                 (Some "production") "findMany" None 0 1500 in
  (exists m,
     snd (query (RepoLogger.Resolved 3)) =
     [RepoLogger.mkEntry RepoLogger.LevelWarn m None]) /\
  (exists m,
     query (RepoLogger.Rejected (Some "connection lost")) =
     (RepoLogger.Rejected (Some "connection lost"),
      [RepoLogger.mkEntry RepoLogger.LevelError m (Some "connection lost")])) /\
  query (RepoLogger.Rejected None) = (RepoLogger.Rejected (Some "TypeError"), []).
Proof.
  intros stack query.
  destruct (repository_logger_reports nat (option string) string stack
              (fun p => p)
              (RepoLogger.create (Some "production")
                 (RepoLogger.mkOptions (Some true) None None))
              (Some "production") "findMany" None 0%Z 1500%Z eq_refl)
    as (Hread & Hthrows & Hslow & _).
  split; [|split].
  - apply (Hslow 3). cbn. lia.
  - apply (Hread (Some "connection lost")). reflexivity.
  - apply (Hthrows None). reflexivity.
Defined.

(** ** [GatewayAuthGuard] and [GatewayAuthMiddleware] *)

Lemma assoc_last_snoc {A} k (m : list (string * A)) v :
  Json.assoc_last k (m ++ [(k, v)]) = Some v.
Proof.
  induction m as [|[k' v'] m IH]; cbn.
  - now rewrite String.eqb_refl.
  - now rewrite IH.
Qed.

Lemma auth_user_object_id id email roles :
  Auth.truthy_prop "id" (Some (Auth.user_object id email roles)) =
  negb (String.eqb id "").
Proof. destruct email; reflexivity. Qed.

Lemma auth_present_spec h s :
  Auth.present h = Some s -> h = Some s /\ String.eqb s "" = false.
Proof.
  destruct h as [t|]; cbn; [|discriminate].
  destruct (String.eqb t "") eqn:E; [discriminate|].
  now intros [= <-].
Qed.

(** The guard lets a request through exactly when the route is public, or
    the request already carries a user with a truthy [id] or [sub], or it
    carries no user and the gateway sent a non-empty [x-user-id].  A
    request that carries a user without [id] and [sub] is turned away even
    when the gateway header is there. *)
Theorem auth_guard_allows_iff trim isPublic request :
  fst (Auth.canActivate trim isPublic request) = Auth.Allow <->
  isPublic = true \/
  (Auth.truthy_prop "id" (Auth.user request) = true \/
   Auth.truthy_prop "sub" (Auth.user request) = true) \/
  (Auth.user request = None /\
   exists id, Auth.present (Auth.headers request "x-user-id") = Some id).
Proof.
  unfold Auth.canActivate. destruct isPublic; [cbn; tauto|].
  cbv zeta.
  destruct (Auth.user request) as [m|] eqn:U.
  - assert (E : match Auth.present (Auth.headers request "x-user-id") with
                | Some _ => request
                | None => request
                end = request) by (now destruct (Auth.present _)).
    rewrite E, U.
    destruct (Auth.truthy_prop "id" (Some m)) eqn:I;
      destruct (Auth.truthy_prop "sub" (Some m)) eqn:S; cbn;
      split; intros H; try reflexivity; try discriminate; try tauto.
    destruct H as [H|[[H|H]|[H _]]]; discriminate.
  - destruct (Auth.present (Auth.headers request "x-user-id")) as [id|] eqn:P.
    + cbn [Auth.user].
      rewrite (auth_user_object_id id
                 (Auth.present (Auth.headers request "x-user-email"))
                 (Auth.roles_of trim (Auth.headers request "x-user-roles"))).
      destruct (auth_present_spec _ _ P) as [_ ->]. cbn.
      split; [intros _|reflexivity]. right. right. split; [reflexivity|eauto].
    + rewrite U. cbn. split; [discriminate|].
      intros [H|[[H|H]|[_ [id H]]]]; discriminate.
Qed.

(** When the guard lets a request through on a route that is not public,
    the user it leaves on the request has a truthy [id]. *)
Theorem auth_guard_leaves_an_id trim request :
  fst (Auth.canActivate trim false request) = Auth.Allow ->
  Auth.truthy_prop "id"
    (Auth.user (snd (Auth.canActivate trim false request))) = true.
Proof.
  unfold Auth.canActivate. cbv zeta.
  set (rq := match Auth.present (Auth.headers request "x-user-id"),
                   Auth.user request with
             | Some id, None => _
             | _, _ => request
             end).
  clearbody rq.
  destruct (Auth.user rq) as [m|] eqn:U; [|discriminate].
  destruct (Auth.truthy_prop "id" (Some m)) eqn:I.
  - cbn. intros _. now rewrite U.
  - destruct (Auth.truthy_prop "sub" (Some m)) eqn:S; [|discriminate].
    cbn. intros _. cbn in S.
    destruct (Json.assoc_last "sub" m) as [sub|]; [|discriminate].
    unfold Auth.truthy_prop. now rewrite assoc_last_snoc.
Qed.

Lemma auth_guard_leaves_an_id_witness :
  Auth.truthy_prop "id"
    (Auth.user
       (snd (Auth.canActivate (fun s => s) false
               (Auth.mkRequest (fun _ => None)
                  (Some [("sub", Json.Str "u-17")]))))) = true.
Proof.
  apply (auth_guard_leaves_an_id (fun s => s)
           (Auth.mkRequest (fun _ => None)
              (Some [("sub", Json.Str "u-17")]))).
  reflexivity.
Defined.

(** A user that is already on the request is never replaced by the
    gateway headers: the guard's verdict and the user it leaves are the
    same whatever the headers say. *)
Theorem auth_guard_keeps_existing_user trim isPublic h h' u :
  fst (Auth.canActivate trim isPublic (Auth.mkRequest h (Some u))) =
  fst (Auth.canActivate trim isPublic (Auth.mkRequest h' (Some u))) /\
  Auth.user (snd (Auth.canActivate trim isPublic (Auth.mkRequest h (Some u)))) =
  Auth.user (snd (Auth.canActivate trim isPublic (Auth.mkRequest h' (Some u)))).
Proof.
  unfold Auth.canActivate. destruct isPublic; [split; reflexivity|].
  cbv zeta. cbn [Auth.user Auth.headers].
  destruct (Auth.present (h "x-user-id")), (Auth.present (h' "x-user-id"));
    cbn [Auth.user Auth.headers];
    destruct (Auth.truthy_prop "id" (Some u)),
             (Auth.truthy_prop "sub" (Some u)); split; reflexivity.
Qed.

(** With the default settings ([TRUST_GATEWAY_AUTH] not set to [false]) the
    middleware never looks at the [Authorization] header: without a
    non-empty [x-user-id] it leaves the request as it is, whatever token it
    carries.  And whatever the settings, a non-empty [x-user-id] wins: the
    user comes from the gateway headers and the token is not verified. *)
Theorem auth_middleware_trusts_the_gateway trim verify mw req :
  (Auth.trustGateway mw = true ->
   Auth.present (Auth.headers req "x-user-id") = None ->
   Auth.use trim verify mw req = req) /\
  (forall id verify' mw',
     Auth.present (Auth.headers req "x-user-id") = Some id ->
     Auth.use trim verify mw req = Auth.use trim verify' mw' req /\
     Auth.truthy_prop "id" (Auth.user (Auth.use trim verify mw req)) = true).
Proof.
  unfold Auth.use. cbv zeta. split.
  - intros T P. rewrite P, T. reflexivity.
  - intros id verify' mw' P. rewrite P. split; [reflexivity|].
    cbn [Auth.user].
    rewrite (auth_user_object_id id (Auth.headers req "x-user-email")
               (Auth.roles_of trim (Auth.headers req "x-user-roles"))).
    now destruct (auth_present_spec _ _ P) as [_ ->].
Qed.

Lemma auth_middleware_trusts_the_gateway_witness :
  let req := Auth.mkRequest
               (fun k => if String.eqb k "authorization"
                         then Some "Bearer abc" else None)
               None in
  Auth.use (fun s => s) (fun _ _ => Some [("sub", Json.Str "u-17")])
    (Auth.create (fun _ => None)) req = req.
Proof.
  intros req.
  apply (auth_middleware_trusts_the_gateway (fun s => s)
           (fun _ _ => Some [("sub", Json.Str "u-17")])
           (Auth.create (fun _ => None)) req); reflexivity.
Defined.

(** The middleware and the guard fit together: a request that comes with a
    non-empty [x-user-id] passes the guard after the middleware has run,
    and the guard leaves the user the middleware attached. *)
Theorem auth_middleware_then_guard trim verify mw isPublic req id :
  Auth.present (Auth.headers req "x-user-id") = Some id ->
  Auth.canActivate trim isPublic (Auth.use trim verify mw req) =
  (Auth.Allow, Auth.use trim verify mw req) /\
  Auth.user (Auth.use trim verify mw req) =
  Some (Auth.user_object id (Auth.headers req "x-user-email")
          (Auth.roles_of trim (Auth.headers req "x-user-roles"))).
Proof.
  intros P. unfold Auth.use. cbv zeta. rewrite P.
  split; [|reflexivity].
  unfold Auth.canActivate. destruct isPublic; [reflexivity|].
  cbv zeta. cbn [Auth.headers Auth.user]. rewrite P.
  cbn [Auth.headers Auth.user].
  rewrite (auth_user_object_id id (Auth.headers req "x-user-email")
             (Auth.roles_of trim (Auth.headers req "x-user-roles"))).
  destruct (auth_present_spec _ _ P) as [_ ->]. reflexivity.
Qed.

Lemma auth_middleware_then_guard_witness :
  let req := Auth.mkRequest
               (fun k => if String.eqb k "x-user-id" then Some "u-17"
                         else if String.eqb k "x-user-roles"
                              then Some "ADMIN,OWNER" else None)
               None in
  Auth.user (Auth.use (fun s => s) (fun _ _ => None)
               (Auth.create (fun _ => None)) req) =
  Some [("id", Json.Str "u-17");
        ("roles", Json.Arr [Json.Str "ADMIN"; Json.Str "OWNER"])].
Proof.
  intros req.
  exact (proj2 (auth_middleware_then_guard (fun s => s) (fun _ _ => None)
                  (Auth.create (fun _ => None)) false req "u-17" eq_refl)).
Defined.

(** ** Failures must come in a row *)

(** A heartbeat that succeeds wipes the slate: whatever the counter held,
    two generic failures after a success still leave the service
    registered, with its timers untouched and no register request sent. *)
Theorem heartbeat_success_restarts_the_count cfg st body r1 r2 w :
  registered w = true ->
  ok st = true ->
  generic_failure r1 = true ->
  generic_failure r2 = true ->
  let beat := and_settle cfg sendHeartbeat_begin in
  let w' := beat r2 (beat r1 (beat (Http st body) w)) in
  registered w' = true /\
  consecutiveFailures w' = 2 /\
  heartbeatTimer w' = heartbeatTimer w /\
  intervals w' = intervals w /\
  pending w' = pending w /\
  fetched w' = fetched w ++ [POST_heartbeat; POST_heartbeat; POST_heartbeat].
Proof.
  intros R Hok G1 G2 beat w'.
  assert (E0 : beat (Http st body) w =
               set_consecutiveFailures 0 (sent POST_heartbeat w)).
  { unfold beat. rewrite heartbeat_tick_registered by exact R.
    cbn. now rewrite Hok. }
  assert (E1 : beat r1 (beat (Http st body) w) =
               set_consecutiveFailures 1
                 (sent POST_heartbeat (beat (Http st body) w))).
  { unfold beat at 1.
    rewrite heartbeat_tick_registered, generic_failure_resume;
      [|exact G1|rewrite E0; exact R].
    rewrite handleHeartbeatFailure_below; rewrite E0;
      [reflexivity|cbn; unfold maxConsecutiveFailures; lia]. }
  assert (E2 : w' = set_consecutiveFailures 2
                      (sent POST_heartbeat (beat r1 (beat (Http st body) w)))).
  { unfold w', beat at 1.
    rewrite heartbeat_tick_registered, generic_failure_resume;
      [|exact G2|rewrite E1, E0; exact R].
    rewrite handleHeartbeatFailure_below; rewrite E1;
      [reflexivity|cbn; unfold maxConsecutiveFailures; lia]. }
  rewrite E2, E1, E0. cbn. rewrite <- !app_assoc. auto 10.
Qed.

Lemma heartbeat_success_restarts_the_count_witness :
  let w0 := mkWorld true false 2 (Some 0) None (Some 1)
              [(0, HeartbeatCb); (1, HealthCheckCb)] 2 [] [POST_register] in
  let beat := and_settle example_config sendHeartbeat_begin in
  registered (beat Threw (beat (Http 500 None) (beat (Http 200 None) w0)))
  = true.
Proof.
  intros w0 beat.
  apply (heartbeat_success_restarts_the_count example_config 200%Z None
           (Http 500 None) Threw w0); reflexivity.
Defined.

(** ** The [LogQuery] decorator *)

(** A method decorated with [LogQuery] ends as the method itself does.  In
    production it leaves a trace exactly when the call failed or took more
    than 1000 ms; every failure is passed to [console.error] with the error
    that was thrown. *)
Theorem log_query_in_production
    (T E : Type) className operation propertyKey env t0 t1
    (result : RepoLogger.Outcome T E) :
  fst (LogQuery.wrapped className operation propertyKey env t0 t1 result)
  = result /\
  (RepoLogger.is_production env = true ->
   (snd (LogQuery.wrapped className operation propertyKey env t0 t1 result)
    = [] <->
    exists v, result = RepoLogger.Resolved v /\ (t1 - t0 <= 1000)%Z)) /\
  (forall e, result = RepoLogger.Rejected e ->
     exists text,
       In (LogQuery.ConsoleError text e)
         (snd (LogQuery.wrapped className operation propertyKey env t0 t1
                 result))).
Proof.
  unfold LogQuery.wrapped. cbv zeta.
  destruct (RepoLogger.is_production env), result as [v|e]; cbn [fst snd];
    (split; [reflexivity|split]).
  - intros _. destruct (Z.ltb_spec 1000 (t1 - t0)); split.
    + discriminate.
    + intros (v' & _ & H'). lia.
    + intros _. exists v. split; [reflexivity|lia].
    + reflexivity.
  - intros e [=].
  - intros _. split; [discriminate|]. intros (v & [=] & _).
  - intros e' [= <-]. eexists. left. reflexivity.
  - discriminate.
  - intros e [=].
  - discriminate.
  - intros e' [= <-]. eexists. right. left. reflexivity.
Qed.

Lemma log_query_in_production_witness :
  snd (LogQuery.wrapped "CourtRepository" None "findById" (Some "production")
         10 700 (RepoLogger.Resolved (T:=nat) (E:=string) 4)) = [].
Proof.
  apply (proj1 (proj2 (log_query_in_production nat string "CourtRepository"
                         None "findById" (Some "production") 10%Z 700%Z
                         (RepoLogger.Resolved 4))) eq_refl).
  exists 4. split; [reflexivity|lia].
Defined.
